(** * MCP Inspector: the proxy core, the debug logger and the transport factory

    A shallow embedding of
      - [server/src/mcpProxy.ts]           (the forwarding engine),
      - [debug-logger.ts], the second half
        of [unnamed/part_003]              (class [DebugLogger]),
      - [unnamed/part_004] and the wrapper class of
        [cli/src/transport.ts]             (the two classes
                                            [DebugTransportWrapper], the
                                            logging decorators),
      - [cli/src/transport.ts]             (the transport factory),
      - [scripts/validate-platform-dependencies.js]
                                           (its two helpers, the package
                                            name of a path and the trace
                                            of a package to a workspace),
    followed by the properties proved about them.

    Asynchronous methods are modelled as run to completion: every [await]
    of the source is a sequencing point of the monad [M] below, and a
    rejected promise is a thrown [Error]. *)

From Stdlib Require Import Ascii String ZArith Lia.
From stdpp Require Import base option list strings pretty gmap.

Local Open Scope string_scope.
Set Warnings "-register-all".
Local Open Scope list_scope.

(* ===================================================================== *)
(** * Part I: definitions *)
(* ===================================================================== *)

(** ** JavaScript values used by the code *)

Module Js.

(** [s.endsWith(suffix)] *)
Definition endsWith (s suffix : string) : bool :=
  let n := String.length s in
  let k := String.length suffix in
  (k <=? n)%nat && String.eqb (String.substring (n - k) k s) suffix.

(** [s.includes(needle)] *)
Fixpoint includes (s needle : string) : bool :=
  String.prefix needle s ||
  match s with
  | EmptyString => false
  | String _ rest => includes rest needle
  end.

Definition is_slash (c : option Ascii.ascii) : bool :=
  match c with
  | Some c => Ascii.eqb c "/"%char
  | None => false
  end.

(** The scanning loop of [dirname] of [node:path] (POSIX):
    [for (i = path.length - 1; i >= 1; --i)], looking for the last slash
    that is not part of a run of trailing slashes.  [None] is [end === -1]. *)
Fixpoint dirname_end (path : string) (i : nat) (matchedSlash : bool) : option nat :=
  match i with
  | O => None
  | S j =>
      if is_slash (String.get i path) then
        if matchedSlash then dirname_end path j true else Some i
      else dirname_end path j false
  end.

(** [dirname(path)] of [node:path] on POSIX. *)
Definition dirname (path : string) : string :=
  if (String.length path =? 0)%nat then "."
  else
    let hasRoot := is_slash (String.get 0 path) in
    match dirname_end path (String.length path - 1) true with
    | None => if hasRoot then "/" else "."
    | Some e =>
        if hasRoot && (e =? 1)%nat then "//" else String.substring 0 e path
    end.

(** A JavaScript [Error]: its [message] and, when present, its [cause]
    already rendered as JSON text (what [JSON.stringify(error.cause)]
    returns). *)
Record Error := mkError {
  message : string;
  cause : option string
}.

(** JSON-like values: what a protocol envelope is made of.  [JError] is a
    native [Error] instance stored in a field. *)
Inductive JSON :=
| JNull
| JBool (b : bool)
| JNumber (z : Z)
| JString (s : string)
| JArray (items : list JSON)
| JObject (fields : list (string * JSON))
| JError (e : Error).

(** Property access [v.k]; [None] is [undefined]. *)
Fixpoint assoc (k : string) (fields : list (string * JSON)) : option JSON :=
  match fields with
  | [] => None
  | (k', v) :: rest => if String.eqb k k' then Some v else assoc k rest
  end.

Definition get (k : string) (v : JSON) : option JSON :=
  match v with
  | JObject fields => assoc k fields
  | _ => None
  end.

End Js.

(** ** The world outside the objects under study *)

Module DebugLogEntry.

(** [interface DebugLogEntry]: one line of the JSONL log file. *)
Record t := mk {
  hrtime : nat;
  time : nat;
  pid : nat;
  role : string;
  direction : string;
  message : option Js.JSON;
  error : option string
}.

(** The record [logClose()] writes: direction [close], no message. *)
Definition is_close (e : t) : bool :=
  String.eqb (direction e) "close" && negb (bool_decide (is_Some (message e))).

End DebugLogEntry.

Module Sys.

Import Js.

(** Calls received by an SDK transport. *)
Inductive TransportCall :=
| TStart
| TSend (message : JSON) (options : option JSON)
| TClose.

(** Events a transport raises through its [onmessage] / [onerror] /
    [onclose] slots. *)
Inductive TransportEvent :=
| OnMessage (message : JSON) (extra : option JSON)
| OnError (error : Error)
| OnClose.

(** Operations of the environment that can fail. *)
Inductive Op :=
| Mkdir | Open | Write | Sync | CloseFile
| InnerStart | InnerSend | InnerClose.

(** An [fs.FileHandle], known by the path it was opened on.  Whether an
    operation on it fails is up to [faults] below. *)
Definition FileHandle := string.

(** The state of the environment.
    - [files]: the log files, by path, each the list of its records;
    - [console]: what [console.error] printed;
    - [clock]: the reading [process.hrtime] and [Date] are taken from;
    - [process_pid]: [process.pid];
    - [faults]: for each fallible operation, the outcomes of its coming
      invocations ([None]: it succeeds; [Some e]: it throws [e]); an
      exhausted list means success;
    - [calls]: the calls the wrapped SDK transport received;
    - [invoked]: the callbacks of other components that ran, with their
      argument. *)
Record World := mkWorld {
  files : gmap string (list DebugLogEntry.t);
  console : list string;
  clock : nat;
  process_pid : nat;
  faults : Op -> list (option Error);
  calls : list TransportCall;
  invoked : list (nat * TransportEvent)
}.

Inductive Outcome (A : Type) :=
| Returned (a : A)
| Thrown (e : Error).
Arguments Returned {A} a.
Arguments Thrown {A} e.

(** Computations that read and change the world and may throw. *)
Definition M (A : Type) : Type := World -> Outcome A * World.

Definition ret {A} (a : A) : M A := fun w => (Returned a, w).

Definition bind {A B} (m : M A) (k : A -> M B) : M B :=
  fun w =>
    match m w with
    | (Returned a, w') => k a w'
    | (Thrown e, w') => (Thrown e, w')
    end.

Definition throw {A} (e : Error) : M A := fun w => (Thrown e, w).

(** [try { body } catch (error) { handler }] *)
Definition try_catch {A} (body : M A) (handler : Error -> M A) : M A :=
  fun w =>
    match body w with
    | (Returned a, w') => (Returned a, w')
    | (Thrown e, w') => handler e w'
    end.

Definition Op_eqb (a b : Op) : bool :=
  match a, b with
  | Mkdir, Mkdir | Open, Open | Write, Write | Sync, Sync
  | CloseFile, CloseFile | InnerStart, InnerStart
  | InnerSend, InnerSend | InnerClose, InnerClose => true
  | _, _ => false
  end.

(** The world once the coming outcome of [op] is used up. *)
Definition pop (op : Op) (w : World) : World :=
  mkWorld (files w) (console w) (clock w) (process_pid w)
          (fun op' => if Op_eqb op op' then tail (faults w op) else faults w op')
          (calls w) (invoked w).

(** Whether the coming invocation of [op] throws. *)
Definition fails (op : Op) (w : World) : bool :=
  match faults w op with
  | Some _ :: _ => true
  | _ => false
  end.

(** One invocation of [op]: it succeeds or throws as [faults] says. *)
Definition attempt (op : Op) : M unit :=
  fun w =>
    match faults w op with
    | Some e :: _ => (Thrown e, pop op w)
    | _ => (Returned tt, pop op w)
    end.

Definition log_of (w : World) (path : string) : list DebugLogEntry.t :=
  default [] (files w !! path).

(** [console.error(text, ...)] *)
Definition console_error (text : string) : M unit :=
  fun w =>
    (Returned tt,
     mkWorld (files w) (console w ++ [text]) (clock w) (process_pid w)
             (faults w) (calls w) (invoked w)).

(** [process.hrtime.bigint()] and [new Date()]: a reading of the clock. *)
Definition now : M nat :=
  fun w =>
    (Returned (clock w),
     mkWorld (files w) (console w) (S (clock w)) (process_pid w)
             (faults w) (calls w) (invoked w)).

Definition getpid : M nat := fun w => (Returned (process_pid w), w).

(** [fs.mkdir(dir, { recursive: true })] *)
Definition fs_mkdir (dir : string) : M unit := attempt Mkdir.

(** [fs.open(path, "a")]: the file exists afterwards. *)
Definition fs_open (path : string) : M FileHandle :=
  bind (attempt Open) (fun _ w =>
    (Returned path,
     mkWorld (<[path := log_of w path]> (files w)) (console w) (clock w)
             (process_pid w) (faults w) (calls w) (invoked w))).

(** [handle.write(line)]: one more record at the end of the file. *)
Definition fh_write (h : FileHandle) (line : DebugLogEntry.t) : M unit :=
  bind (attempt Write) (fun _ w =>
    (Returned tt,
     mkWorld (<[h := log_of w h ++ [line]]> (files w)) (console w) (clock w)
             (process_pid w) (faults w) (calls w) (invoked w))).

(** [handle.sync()] *)
Definition fh_sync (h : FileHandle) : M unit := attempt Sync.

(** [handle.close()] *)
Definition fh_close (h : FileHandle) : M unit := attempt CloseFile.

(** The wrapped SDK transport: each call is recorded, then succeeds or
    throws as [faults] says. *)
Definition record_call (c : TransportCall) : M unit :=
  fun w =>
    (Returned tt,
     mkWorld (files w) (console w) (clock w) (process_pid w)
             (faults w) (calls w ++ [c]) (invoked w)).

(** [wrappedTransport.start()] *)
Definition transport_start : M unit :=
  bind (record_call TStart) (fun _ => attempt InnerStart).

(** [wrappedTransport.send(message, options)] *)
Definition transport_send (message : JSON) (options : option JSON) : M unit :=
  bind (record_call (TSend message options)) (fun _ => attempt InnerSend).

(** [wrappedTransport.close()] *)
Definition transport_close : M unit :=
  bind (record_call TClose) (fun _ => attempt InnerClose).

(** A callback of another component, known by [id], is run on [ev]. *)
Definition invoke_external (id : nat) (ev : TransportEvent) : M unit :=
  fun w =>
    (Returned tt,
     mkWorld (files w) (console w) (clock w) (process_pid w)
             (faults w) (calls w) (invoked w ++ [(id, ev)])).

(** A world to evaluate on: no file yet, an empty console, and the
    given outcomes for the fallible operations. *)
Definition example_world (f : Op -> list (option Error)) : World :=
  mkWorld ∅ [] 0 4242 f [] [].

Definition no_faults : Op -> list (option Error) := fun _ => [].

(** The coming invocation of [op] throws [e]; nothing else fails. *)
Definition fault_at (op : Op) (e : Error) : Op -> list (option Error) :=
  fun op' => if Op_eqb op op' then [Some e] else [].

(** What the wrapped transport and the callbacks of other components
    see of the world. *)
Definition transport_view (w : World)
  : list TransportCall * list (nat * TransportEvent)
    * (list (option Error) * list (option Error) * list (option Error)) :=
  (calls w, invoked w,
   (faults w InnerStart, faults w InnerSend, faults w InnerClose)).

(** A computation that nothing of [transport_view] can tell from no
    computation at all. *)
Definition quiet {A} (m : M A) : Prop :=
  forall w, transport_view (snd (m w)) = transport_view w.

(** A computation that cannot throw. *)
Definition returns {A} (m : M A) : Prop :=
  forall w, exists a w', m w = (Returned a, w').

(** How the promise of [m] settles: the caller goes on either way. *)
Definition settle {A} (m : M A) : M (Outcome A) :=
  fun w => let '(r, w') := m w in (Returned r, w').

End Sys.

Notation "'let*' x ':=' c1 'in' c2" := (Sys.bind c1 (fun x => c2))
  (at level 10, x name, c1 at level 100, c2 at level 200).

(** ** [debug-logger.ts] ([unnamed/part_003], lines 112-230): class [DebugLogger] *)

Module DebugLogger.

Import Js Sys.

Record DebugLogger := mk {
  logFileHandle : option FileHandle;
  logFilePath : string;
  role : string
}.

Definition set_logFileHandle (this : DebugLogger) (h : option FileHandle) : DebugLogger :=
  mk h (logFilePath this) (role this).

(** [constructor(debugBasePath, role = "proxy")] *)
Definition new (debugBasePath : string) (role : option string) : M DebugLogger :=
  let role := default "proxy" role in
  let* pid := getpid in
  ret (mk None (debugBasePath +:+ "." +:+ role +:+ "." +:+ pretty pid) role).

(** [async initialize()] *)
Definition initialize (this : DebugLogger) : M DebugLogger :=
  try_catch
    (let parentDir := dirname (logFilePath this) in
     let* _ := (if String.eqb parentDir "." then ret tt else fs_mkdir parentDir) in
     let* h := fs_open (logFilePath this) in
     ret (set_logFileHandle this (Some h)))
    (fun error =>
       let* _ := console_error
                   ("[DebugLogger] Failed to open log file " +:+ logFilePath this
                    +:+ ": " +:+ Js.message error) in
       ret this).

(** [async logMessage(direction, message)] *)
Definition logMessage (this : DebugLogger) (direction : string) (message : JSON)
  : M DebugLogger :=
  match logFileHandle this with
  | None => ret this
  | Some h =>
      let* hr := now in
      let* t := now in
      let* pid := getpid in
      let entry :=
        DebugLogEntry.mk hr t pid (role this) direction (Some message) None in
      let* _ :=
        try_catch
          (let line := entry in
           let* _ := fh_write h line in
           match logFileHandle this with
           | Some h' => fh_sync h'
           | None => ret tt
           end)
          (fun error =>
             console_error
               ("[DebugLogger] Failed to write log entry: " +:+ Js.message error)) in
      ret this
  end.

(** [async logError(error)] *)
Definition logError (this : DebugLogger) (error : Error) : M DebugLogger :=
  match logFileHandle this with
  | None => ret this
  | Some h =>
      let* hr := now in
      let* t := now in
      let* pid := getpid in
      let entry :=
        DebugLogEntry.mk hr t pid (role this) "error" None (Some (Js.message error)) in
      let* _ :=
        try_catch
          (let line := entry in fh_write h line)
          (fun _ => ret tt) in
      ret this
  end.

(** [async logClose()] *)
Definition logClose (this : DebugLogger) : M DebugLogger :=
  match logFileHandle this with
  | None => ret this
  | Some h =>
      let* hr := now in
      let* t := now in
      let* pid := getpid in
      let entry :=
        DebugLogEntry.mk hr t pid (role this) "close" None None in
      try_catch
        (let line := entry in
         let* _ := fh_write h line in
         let* _ := fh_close h in
         ret (set_logFileHandle this None))
        (fun _ => ret this)
  end.

(** Whether [initialize()] fails to open the log file: creating the
    parent directory fails, or opening the file does. *)
Definition open_fails (this : DebugLogger) (w : World) : bool :=
  (negb (String.eqb (dirname (logFilePath this)) ".") && fails Mkdir w)
  || fails Open w.

(** A call of one of the three logging methods. *)
Inductive LogCall :=
| CallLogMessage (direction : string) (message : JSON)
| CallLogError (error : Error)
| CallLogClose.

Definition call (this : DebugLogger) (c : LogCall) : M DebugLogger :=
  match c with
  | CallLogMessage direction message => logMessage this direction message
  | CallLogError error => logError this error
  | CallLogClose => logClose this
  end.

(** The calls of [cs] one after the other, each awaited. *)
Fixpoint run (this : DebugLogger) (cs : list LogCall) : M DebugLogger :=
  match cs with
  | [] => ret this
  | c :: rest =>
      let* this' := call this c in
      run this' rest
  end.

End DebugLogger.

(** ** [server/src/mcpProxy.ts]: the forwarding engine *)

Module McpProxy.

Import Js.

(** What the TypeScript type [JSONRPCRequest] of the SDK promises of a
    value: [jsonrpc: "2.0"], an [id] that is a string or a number, and a
    [method] that is a string. *)
Definition JSONRPCRequest_shape (value : JSON) : bool :=
  match get "jsonrpc" value, get "id" value, get "method" value with
  | Some (JString v), Some (JString _ | JNumber _), Some (JString _) =>
      String.eqb v "2.0"
  | _, _, _ => false
  end.

(** What [mcpProxy.ts] imports from the SDK
    ([@modelcontextprotocol/sdk/types.js]): [isJSONRPCRequest], the type
    guard [(value: unknown): value is JSONRPCRequest].  It is the
    outcome of parsing [value] with the SDK's schema of a request, so it
    holds of values of that type only; the schema being strict, it does
    not hold of all of them. *)
Class Sdk := {
  isJSONRPCRequest : JSON -> bool;
  isJSONRPCRequest_sound :
    forall value, isJSONRPCRequest value = true -> JSONRPCRequest_shape value = true
}.

(** The schema of the SDK, [JSONRPCRequestSchema]:
    [z.object({ jsonrpc, id }).merge(RequestSchema).strict()] with
    [RequestSchema = z.object({ method: z.string(), params:
    z.optional(BaseRequestParamsSchema) })].  An object with no other key
    than [jsonrpc], [id], [method] and [params]; [params], when present,
    an object whose [_meta], when present, is an object whose
    [progressToken], when present, is a string or a number. *)
Definition RequestMetaSchema_parses (meta : JSON) : bool :=
  match meta with
  | JObject fields =>
      match assoc "progressToken" fields with
      | None | Some (JString _ | JNumber _) => true
      | Some _ => false
      end
  | _ => false
  end.

Definition BaseRequestParamsSchema_parses (params : option JSON) : bool :=
  match params with
  | None => true
  | Some (JObject fields) =>
      match assoc "_meta" fields with
      | None => true
      | Some meta => RequestMetaSchema_parses meta
      end
  | Some _ => false
  end.

Definition JSONRPCRequestSchema_parses (value : JSON) : bool :=
  JSONRPCRequest_shape value
  && match value with
     | JObject fields =>
         forallb
           (fun field =>
              existsb (String.eqb field.1) ["jsonrpc"; "id"; "method"; "params"])
           fields
     | _ => false
     end
  && BaseRequestParamsSchema_parses (get "params" value).

(** The SDK with that schema. *)
#[global] Instance sdk_schema : Sdk :=
  {| isJSONRPCRequest := JSONRPCRequestSchema_parses;
     isJSONRPCRequest_sound :=
       fun value H => proj1 (andb_prop _ _ (proj1 (andb_prop _ _ H))) |}.

(** The two transports handed to [mcpProxy]. *)
Inductive Side := transportToClient | transportToServer.

(** What a handler does to the outside: calls on the two transports, on
    the debug logger and on the console. *)
Inductive Action :=
| Send (transport : Side) (message : JSON)
| Close (transport : Side)
| LogMessage (direction : string) (message : JSON)
| LogError (error : Error)
| LogClose
| ConsoleError (text : string).

(** The [let] variables the handlers close over. *)
Record State := mkState {
  transportToClientClosed : bool;
  transportToServerClosed : bool;
  reportedServerSession : bool
}.

(** On entry to [mcpProxy]. *)
Definition initial : State := mkState false false false.

(** [debugLogger?.f(...)]: [debugLogger] is non-null exactly when
    [MCP_TRANSPORT_DEBUG_FILE] is set. *)
Definition debugLogger_call (debugLogger : bool) (a : Action) : list Action :=
  if debugLogger then [a] else [].

Definition onClientError (error : Error) : list Action :=
  [ConsoleError ("Error from inspector client: " +:+ message error)].

Definition onServerError (error : Error) : list Action :=
  if includes (message error) "Error POSTing to endpoint (HTTP 404)"
     || match cause error with
        | Some text => includes text "ECONNREFUSED"
        | None => false
        end
  then [ConsoleError "Connection refused. Is the MCP server running?"]
  else [ConsoleError ("Error from MCP server: " +:+ message error)].

(** The object literal [errorResponse] of lines 52-60; [id] is
    [message.id], which is defined where the literal is built, since
    [isJSONRPCRequest(message)] holds there. *)
Definition errorResponse (id : option JSON) (error : Error) : JSON :=
  JObject
    [("jsonrpc", JString "2.0");
     ("id", default JNull id);
     ("error",
      JObject [("code", JNumber (-32001));
               ("message", JString (message error));
               ("data", JError error)])].

Section Handlers.

Context {sdk : Sdk}.

(** Whether the debug logger was created. *)
Variable debugLogger : bool.

(** [transportToClient.onmessage] up to the call of [send]. *)
Definition transportToClient_onmessage (s : State) (message : JSON)
  : State * list Action :=
  (s,
   debugLogger_call debugLogger (LogMessage "client->server" message)
   ++ [Send transportToServer message]).

(** The [.catch] handler of [transportToServer.send(message)], lines 47-63. *)
Definition transportToServer_send_catch (s : State) (message : JSON) (error : Error)
  : State * list Action :=
  (s,
   debugLogger_call debugLogger (LogError error)
   ++ (if isJSONRPCRequest message && negb (transportToClientClosed s)
       then [Send transportToClient (errorResponse (get "id" message) error)]
       else [])).

(** [transportToServer.onmessage]; [sessionId] is the value of
    [transportToServer.sessionId] when the message arrives. *)
Definition transportToServer_onmessage (s : State) (message : JSON)
    (sessionId : option string) : State * list Action :=
  let report :=
    if reportedServerSession s then []
    else match sessionId with
         | Some id =>
             if String.eqb id "" then []
             else [ConsoleError ("Proxy  <-> Server sessionId: " +:+ id)]
         | None => []
         end in
  (mkState (transportToClientClosed s) (transportToServerClosed s) true,
   report
   ++ debugLogger_call debugLogger (LogMessage "server->client" message)
   ++ [Send transportToClient message]).

(** [transportToClient.onclose] *)
Definition transportToClient_onclose (s : State) : State * list Action :=
  if transportToServerClosed s then (s, [])
  else
    (mkState true (transportToServerClosed s) (reportedServerSession s),
     debugLogger_call debugLogger LogClose ++ [Close transportToServer]).

(** [transportToServer.onclose] *)
Definition transportToServer_onclose (s : State) : State * list Action :=
  if transportToClientClosed s then (s, [])
  else
    (mkState (transportToClientClosed s) true (reportedServerSession s),
     debugLogger_call debugLogger LogClose ++ [Close transportToClient]).

(** [transportToClient.onerror] *)
Definition transportToClient_onerror (s : State) (error : Error)
  : State * list Action :=
  (s, debugLogger_call debugLogger (LogError error) ++ onClientError error).

(** [transportToServer.onerror] *)
Definition transportToServer_onerror (s : State) (error : Error)
  : State * list Action :=
  (s, debugLogger_call debugLogger (LogError error) ++ onServerError error).

(** What can happen to a forwarding pair: the six transport events and
    the rejection of a promise one of the handlers started. *)
Inductive Event :=
| ClientOnMessage (message : JSON)
| ServerOnMessage (message : JSON) (sessionId : option string)
| ClientOnClose
| ServerOnClose
| ClientOnError (error : Error)
| ServerOnError (error : Error)
(* [transportToServer.send(message)] of line 47 rejected *)
| ServerSendRejected (message : JSON) (error : Error)
(* [transportToClient.send(...)] of line 61 or 80 rejected *)
| ClientSendRejected (error : Error)
(* [transportToServer.close()] of line 90 rejected *)
| ServerCloseRejected (error : Error)
(* [transportToClient.close()] of line 99 rejected *)
| ClientCloseRejected (error : Error).

Definition step (s : State) (ev : Event) : State * list Action :=
  match ev with
  | ClientOnMessage message => transportToClient_onmessage s message
  | ServerOnMessage message sessionId =>
      transportToServer_onmessage s message sessionId
  | ClientOnClose => transportToClient_onclose s
  | ServerOnClose => transportToServer_onclose s
  | ClientOnError error => transportToClient_onerror s error
  | ServerOnError error => transportToServer_onerror s error
  | ServerSendRejected message error =>
      transportToServer_send_catch s message error
  | ClientSendRejected error => (s, onClientError error)
  | ServerCloseRejected error => (s, onServerError error)
  | ClientCloseRejected error => (s, onClientError error)
  end.

(** The events of [evs] in order; the actions are collected in order. *)
Fixpoint run (s : State) (evs : list Event) : State * list Action :=
  match evs with
  | [] => (s, [])
  | ev :: rest =>
      let '(s1, acts1) := step s ev in
      let '(s2, acts2) := run s1 rest in
      (s2, acts1 ++ acts2)
  end.

End Handlers.

(** The messages passed to [send] of transport [t], in order. *)
Fixpoint sent (t : Side) (acts : list Action) : list JSON :=
  match acts with
  | [] => []
  | Send transportToClient m :: rest =>
      match t with
      | transportToClient => m :: sent t rest
      | transportToServer => sent t rest
      end
  | Send transportToServer m :: rest =>
      match t with
      | transportToClient => sent t rest
      | transportToServer => m :: sent t rest
      end
  | _ :: rest => sent t rest
  end.

(** The transports [close()] was called on, in order. *)
Fixpoint closed (acts : list Action) : list Side :=
  match acts with
  | [] => []
  | Close t :: rest => t :: closed rest
  | _ :: rest => closed rest
  end.

Definition is_ClientOnClose (ev : Event) : bool :=
  match ev with
  | ClientOnClose => true
  | _ => false
  end.

Definition is_ServerOnClose (ev : Event) : bool :=
  match ev with
  | ServerOnClose => true
  | _ => false
  end.

Definition is_onclose (ev : Event) : bool :=
  match ev with
  | ClientOnClose | ServerOnClose => true
  | _ => false
  end.

(** An [onerror] event or the rejection of a [send]. *)
Definition is_failure (ev : Event) : bool :=
  match ev with
  | ClientOnError _ | ServerOnError _
  | ServerSendRejected _ _ | ClientSendRejected _ => true
  | _ => false
  end.

(** Diagnostics: calls on the logger and the console. *)
Definition is_diagnostic (a : Action) : bool :=
  match a with
  | LogMessage _ _ | LogError _ | LogClose | ConsoleError _ => true
  | _ => false
  end.

End McpProxy.

(** ** [cli/src/transport.ts]: class [DebugTransportWrapper] (lines 75-165) *)

Module CliDebugTransportWrapper.

Import Js Sys.

(** The functions that sit in callback slots: a function of another
    component, or the [async] arrow function one of the three setters
    builds around the [callback] it is given. *)
Inductive Callback :=
| External (id : nat)
| Logged (callback : Callback).

(** The slots of the wrapped SDK transport. *)
Record Transport := mkTransport {
  onmessage : option Callback;
  onerror : option Callback;
  onclose : option Callback;
  sessionId : option string
}.

Record Wrapper := mk {
  wrappedTransport : Transport;
  debugLogger : DebugLogger.DebugLogger;
  initialized : bool
}.

Definition set_debugLogger (this : Wrapper) (l : DebugLogger.DebugLogger) : Wrapper :=
  mk (wrappedTransport this) l (initialized this).

(** [constructor(wrappedTransport, debugBasePath)] *)
Definition new (wrappedTransport : Transport) (debugBasePath : string) : M Wrapper :=
  let* l := DebugLogger.new debugBasePath (Some "cli") in
  ret (mk wrappedTransport l false).

(** [get sessionId()] *)
Definition get_sessionId (this : Wrapper) : option string :=
  sessionId (wrappedTransport this).

(** [private async ensureInitialized()] *)
Definition ensureInitialized (this : Wrapper) : M Wrapper :=
  if initialized this then ret this
  else
    let* l := DebugLogger.initialize (debugLogger this) in
    ret (mk (wrappedTransport this) l true).

(** [async start()]: the wrapper afterwards, and how the call settled. *)
Definition start (this : Wrapper) : M (Wrapper * Outcome unit) :=
  let* this := ensureInitialized this in
  let* r := settle transport_start in
  ret (this, r).

(** [async send(message, options)] *)
Definition send (this : Wrapper) (message : JSON) (options : option JSON)
  : M (Wrapper * Outcome unit) :=
  let* this := ensureInitialized this in
  let* l := DebugLogger.logMessage (debugLogger this) "send" message in
  let this := set_debugLogger this l in
  let* r := settle (transport_send message options) in
  ret (this, r).

(** [async close()] *)
Definition close (this : Wrapper) : M (Wrapper * Outcome unit) :=
  let* l := DebugLogger.logClose (debugLogger this) in
  let this := set_debugLogger this l in
  let* r := settle transport_close in
  ret (this, r).

(** [set onmessage(callback)] *)
Definition set_onmessage (this : Wrapper) (callback : option Callback) : Wrapper :=
  let t := wrappedTransport this in
  mk (mkTransport (Logged <$> callback) (onerror t) (onclose t) (sessionId t))
     (debugLogger this) (initialized this).

(** [get onmessage()] *)
Definition get_onmessage (this : Wrapper) : option Callback :=
  onmessage (wrappedTransport this).

(** [set onerror(callback)] *)
Definition set_onerror (this : Wrapper) (callback : option Callback) : Wrapper :=
  let t := wrappedTransport this in
  mk (mkTransport (onmessage t) (Logged <$> callback) (onclose t) (sessionId t))
     (debugLogger this) (initialized this).

(** [get onerror()] *)
Definition get_onerror (this : Wrapper) : option Callback :=
  onerror (wrappedTransport this).

(** [set onclose(callback)] *)
Definition set_onclose (this : Wrapper) (callback : option Callback) : Wrapper :=
  let t := wrappedTransport this in
  mk (mkTransport (onmessage t) (onerror t) (Logged <$> callback) (sessionId t))
     (debugLogger this) (initialized this).

(** [get onclose()] *)
Definition get_onclose (this : Wrapper) : option Callback :=
  onclose (wrappedTransport this).

(** Running the function [f] on the event [ev].  The arrow function of a
    setter logs what the event carries and then calls its [callback]:
    for a message [await ensureInitialized(); await logMessage("recv", m)],
    for an error [await ensureInitialized(); await logError(e)], for a
    close [await logClose()]. *)
Fixpoint invoke (this : Wrapper) (f : Callback) (ev : TransportEvent) : M Wrapper :=
  match f with
  | External id =>
      let* _ := invoke_external id ev in
      ret this
  | Logged callback =>
      let* this :=
        match ev with
        | OnMessage message _ =>
            let* this := ensureInitialized this in
            let* l := DebugLogger.logMessage (debugLogger this) "recv" message in
            ret (set_debugLogger this l)
        | OnError error =>
            let* this := ensureInitialized this in
            let* l := DebugLogger.logError (debugLogger this) error in
            ret (set_debugLogger this l)
        | OnClose =>
            let* l := DebugLogger.logClose (debugLogger this) in
            ret (set_debugLogger this l)
        end in
      invoke this callback ev
  end.

(** The slot the wrapped transport calls for [ev]. *)
Definition slot (t : Transport) (ev : TransportEvent) : option Callback :=
  match ev with
  | OnMessage _ _ => onmessage t
  | OnError _ => onerror t
  | OnClose => onclose t
  end.

(** The wrapped transport raises [ev]: [this.onmessage?.(message, extra)]
    and the like, inside the SDK transport. *)
Definition fire (this : Wrapper) (ev : TransportEvent) : M Wrapper :=
  match slot (wrappedTransport this) ev with
  | Some f => invoke this f ev
  | None => ret this
  end.

(** Assigning [callback] to the wrapper's property for events like [ev]. *)
Definition assign (this : Wrapper) (ev : TransportEvent) (callback : option Callback)
  : Wrapper :=
  match ev with
  | OnMessage _ _ => set_onmessage this callback
  | OnError _ => set_onerror this callback
  | OnClose => set_onclose this callback
  end.

(** What the getter of the property for events like [ev] returns. *)
Definition property (this : Wrapper) (ev : TransportEvent) : option Callback :=
  match ev with
  | OnMessage _ _ => get_onmessage this
  | OnError _ => get_onerror this
  | OnClose => get_onclose this
  end.

End CliDebugTransportWrapper.

(** ** [unnamed/part_004]: class [DebugTransportWrapper] *)

Module DebugTransportWrapper.

Import Js Sys.

(** The functions that sit in callback slots: a function of another
    component, or one of the arrow functions [start()] installs on the
    wrapped transport around the function it found there. *)
Inductive Callback :=
| External (id : nat)
| Wrapping (original : option Callback).

Record Transport := mkTransport {
  onmessage : option Callback;
  onerror : option Callback;
  onclose : option Callback;
  sessionId : option string
}.

Record Wrapper := mk {
  wrappedTransport : Transport;
  role : string;
  debugLogger : DebugLogger.DebugLogger;
  initialized : bool;
  _onclose : option Callback;
  _onerror : option Callback;
  _onmessage : option Callback
}.

Definition set_debugLogger (this : Wrapper) (l : DebugLogger.DebugLogger) : Wrapper :=
  mk (wrappedTransport this) (role this) l (initialized this)
     (_onclose this) (_onerror this) (_onmessage this).

Definition set_wrappedTransport (this : Wrapper) (t : Transport) : Wrapper :=
  mk t (role this) (debugLogger this) (initialized this)
     (_onclose this) (_onerror this) (_onmessage this).

(** [constructor(wrappedTransport, role, debugBasePath)] *)
Definition new (wrappedTransport : Transport) (role debugBasePath : string) : M Wrapper :=
  let* l := DebugLogger.new debugBasePath (Some role) in
  ret (mk wrappedTransport role l false None None None).

(** [get sessionId()] *)
Definition get_sessionId (this : Wrapper) : option string :=
  sessionId (wrappedTransport this).

(** [private async ensureInitialized()] *)
Definition ensureInitialized (this : Wrapper) : M Wrapper :=
  if initialized this then ret this
  else
    let* l := DebugLogger.initialize (debugLogger this) in
    ret (mk (wrappedTransport this) (role this) l true
            (_onclose this) (_onerror this) (_onmessage this)).

(** [async start()] *)
Definition start (this : Wrapper) : M (Wrapper * Outcome unit) :=
  let* this := ensureInitialized this in
  let originalOnMessage := onmessage (wrappedTransport this) in
  let originalOnError := onerror (wrappedTransport this) in
  let originalOnClose := onclose (wrappedTransport this) in
  let this :=
    set_wrappedTransport this
      (mkTransport (Some (Wrapping originalOnMessage))
                   (Some (Wrapping originalOnError))
                   (Some (Wrapping originalOnClose))
                   (sessionId (wrappedTransport this))) in
  let* r := settle transport_start in
  ret (this, r).

(** [async send(message, options)] *)
Definition send (this : Wrapper) (message : JSON) (options : option JSON)
  : M (Wrapper * Outcome unit) :=
  let* this := ensureInitialized this in
  let* l := DebugLogger.logMessage (debugLogger this) "send" message in
  let this := set_debugLogger this l in
  let* r := settle (transport_send message options) in
  ret (this, r).

(** [async close()] *)
Definition close (this : Wrapper) : M (Wrapper * Outcome unit) :=
  let* l := DebugLogger.logClose (debugLogger this) in
  let this := set_debugLogger this l in
  let* r := settle transport_close in
  ret (this, r).

(** [set onclose(callback)] *)
Definition set_onclose (this : Wrapper) (callback : option Callback) : Wrapper :=
  mk (wrappedTransport this) (role this) (debugLogger this) (initialized this)
     callback (_onerror this) (_onmessage this).

(** [get onclose()] *)
Definition get_onclose (this : Wrapper) : option Callback := _onclose this.

(** [set onerror(callback)] *)
Definition set_onerror (this : Wrapper) (callback : option Callback) : Wrapper :=
  mk (wrappedTransport this) (role this) (debugLogger this) (initialized this)
     (_onclose this) callback (_onmessage this).

(** [get onerror()] *)
Definition get_onerror (this : Wrapper) : option Callback := _onerror this.

(** [set onmessage(callback)] *)
Definition set_onmessage (this : Wrapper) (callback : option Callback) : Wrapper :=
  mk (wrappedTransport this) (role this) (debugLogger this) (initialized this)
     (_onclose this) (_onerror this) callback.

(** [get onmessage()] *)
Definition get_onmessage (this : Wrapper) : option Callback := _onmessage this.

(** Running the function [f] on the event [ev].  An arrow function of
    [start()] calls the logger for what the event carries
    ([logMessage("recv", m)], [logError(e)] or [logClose()]) and then the
    [original] it captured, when there is one. *)
Fixpoint invoke (this : Wrapper) (f : Callback) (ev : TransportEvent) : M Wrapper :=
  match f with
  | External id =>
      let* _ := invoke_external id ev in
      ret this
  | Wrapping original =>
      let* l :=
        match ev with
        | OnMessage message _ =>
            DebugLogger.logMessage (debugLogger this) "recv" message
        | OnError error => DebugLogger.logError (debugLogger this) error
        | OnClose => DebugLogger.logClose (debugLogger this)
        end in
      let this := set_debugLogger this l in
      match original with
      | Some g => invoke this g ev
      | None => ret this
      end
  end.

Definition slot (t : Transport) (ev : TransportEvent) : option Callback :=
  match ev with
  | OnMessage _ _ => onmessage t
  | OnError _ => onerror t
  | OnClose => onclose t
  end.

(** The wrapped transport raises [ev]. *)
Definition fire (this : Wrapper) (ev : TransportEvent) : M Wrapper :=
  match slot (wrappedTransport this) ev with
  | Some f => invoke this f ev
  | None => ret this
  end.

(** Assigning [callback] to the wrapper's property for events like [ev]. *)
Definition assign (this : Wrapper) (ev : TransportEvent) (callback : option Callback)
  : Wrapper :=
  match ev with
  | OnMessage _ _ => set_onmessage this callback
  | OnError _ => set_onerror this callback
  | OnClose => set_onclose this callback
  end.

(** What the getter of the property for events like [ev] returns. *)
Definition property (this : Wrapper) (ev : TransportEvent) : option Callback :=
  match ev with
  | OnMessage _ _ => get_onmessage this
  | OnError _ => get_onerror this
  | OnClose => get_onclose this
  end.

End DebugTransportWrapper.

(** ** [cli/src/transport.ts]: the transport factory *)

Module TransportFactory.

Import Js.
Import Sys (Outcome, Returned, Thrown).

(** A parsed WHATWG [URL] object.  [host] includes the port;
    [opaque_path] marks a URL such as [mailto:x], which has no hierarchy
    to resolve a reference against. *)
Record URL := mkURL {
  protocol : string;
  username : string;
  password : string;
  host : string;
  pathname : string;
  search : string;
  hash : string;
  opaque_path : bool
}.

(** [type TransportOptions] *)
Record TransportOptions := mkOptions {
  transportType : string;
  command : option string;
  args : option (list string);
  url : option string
}.

(** The transports the factory builds: the three SDK client transports
    with their constructor arguments, and the logging decorator. *)
Inductive Transport :=
| SSEClientTransport (url : URL)
| StreamableHTTPClientTransport (url : URL)
| StdioClientTransport (command : string) (args : list string)
    (env : gmap string string) (stderr : string)
| DebugTransportWrapper (wrappedTransport : Transport) (debugBasePath : string).

(** What the factory takes from its platform: the [URL] parser
    ([new URL(input)], which throws on a malformed input), [spawn-rx]'s
    [findActualExecutable], the SDK's [getDefaultEnvironment()] and
    [process.env]. *)
Class Platform := {
  new_URL : string -> Outcome URL;
  findActualExecutable : string -> list string -> Outcome (string * list string);
  getDefaultEnvironment : gmap string string;
  process_env : gmap string (option string)
}.

(** The calls the factory makes on the platform and the SDK. *)
Inductive Call :=
| NewURL (input : string)
| NewURLWithBase (path : string) (base : URL)
| FindActualExecutable (command : string) (args : list string)
| Construct (t : Transport).

(** A factory computation: the calls it made, and its result or the
    error it threw. *)
Definition F (A : Type) : Type := list Call * Outcome A.

Definition ret {A} (a : A) : F A := ([], Returned a).

Definition throw {A} (e : Error) : F A := ([], Thrown e).

Definition bind {A B} (m : F A) (k : A -> F B) : F B :=
  match m with
  | (tr, Returned a) => let '(tr', r) := k a in (tr ++ tr', r)
  | (tr, Thrown e) => (tr, Thrown e)
  end.

(** [try { body } catch (error) { handler }] *)
Definition try_catch {A} (body : F A) (handler : Error -> F A) : F A :=
  match body with
  | (tr, Returned a) => (tr, Returned a)
  | (tr, Thrown e) => let '(tr', r) := handler e in (tr ++ tr', r)
  end.

Definition call {A} (c : Call) (r : Outcome A) : F A := ([c], r).

(** An ASCII letter. *)
Definition is_ascii_alpha (c : Ascii.ascii) : bool :=
  let n := Ascii.nat_of_ascii c in
  ((65 <=? n)%nat && (n <=? 90)%nat) || ((97 <=? n)%nat && (n <=? 122)%nat).

(** What stands before the first slash of [s]. *)
Fixpoint upto_slash (s : string) : string :=
  match s with
  | EmptyString => EmptyString
  | String c rest =>
      if Ascii.eqb c "/" then EmptyString else String c (upto_slash rest)
  end.

(** The first segment of the path of a URL, read off its [pathname]:
    [path[0]] of the URL standard. *)
Definition first_segment (pathname : string) : string :=
  match pathname with
  | String "/" rest => upto_slash rest
  | _ => ""
  end.

(** A normalized Windows drive letter: a letter followed by a colon. *)
Definition is_normalized_windows_drive_letter (segment : string) : bool :=
  match segment with
  | String c (String ":" EmptyString) => is_ascii_alpha c
  | _ => false
  end.

(** [new URL(path, base)] for [path] one of ["/sse"] and ["/mcp"], after
    the parser of the URL standard.  The input has no scheme; a [base]
    with an opaque path makes it fail.  For a [base] that is not a
    [file:] URL (relative state, relative slash state, path state) the
    result has the scheme, the credentials, the host and the port of
    [base], [path] as its whole path, no query and no fragment.  For a
    [file:] URL (file state, file slash state, path state) it has the
    host of [base] and no credentials, and its path starts with the drive
    letter of [base] when the path of [base] starts with one. *)
Definition URL_with_base (path : string) (base : URL) : Outcome URL :=
  if opaque_path base then Thrown (mkError "Invalid URL" None)
  else if String.eqb (protocol base) "file:" then
    let drive := first_segment (pathname base) in
    Returned (mkURL "file:" "" "" (host base)
                    (if is_normalized_windows_drive_letter drive
                     then "/" +:+ drive +:+ path else path)
                    "" "" false)
  else
    Returned (mkURL (protocol base) (username base) (password base)
                    (host base) path "" "" false).

(** [{ ...a, ...b }]: the properties of [a], then those of [b], a later
    one replacing an earlier one of the same key. *)
Definition spread (a b : gmap string string) : gmap string string := b ∪ a.

(** JavaScript truthiness of [process.env.NAME]. *)
Definition truthy (v : option (option string)) : option string :=
  match v with
  | Some (Some s) => if String.eqb s "" then None else Some s
  | _ => None
  end.

Fixpoint kind (t : Transport) : string :=
  match t with
  | SSEClientTransport _ => "sse"
  | StreamableHTTPClientTransport _ => "http"
  | StdioClientTransport _ _ _ _ => "stdio"
  | DebugTransportWrapper t' _ => kind t'
  end.

Definition is_Construct (c : Call) : bool :=
  match c with
  | Construct (DebugTransportWrapper _ _) => false
  | Construct _ => true
  | _ => false
  end.

Section Factory.

Context {P : Platform}.

Local Notation "'let+' x ':=' c1 'in' c2" := (bind c1 (fun x => c2))
  (at level 10, x name, c1 at level 100, c2 at level 200).

(** [function createSSETransport(options)] *)
Definition createSSETransport (options : TransportOptions) : F Transport :=
  let input := default "" (url options) in
  let+ baseUrl := call (NewURL input) (new_URL input) in
  let+ sseUrl :=
    if endsWith (pathname baseUrl) "/sse" then ret baseUrl
    else call (NewURLWithBase "/sse" baseUrl) (URL_with_base "/sse" baseUrl) in
  call (Construct (SSEClientTransport sseUrl)) (Returned (SSEClientTransport sseUrl)).

(** [function createHTTPTransport(options)] *)
Definition createHTTPTransport (options : TransportOptions) : F Transport :=
  let input := default "" (url options) in
  let+ baseUrl := call (NewURL input) (new_URL input) in
  let+ mcpUrl :=
    if endsWith (pathname baseUrl) "/mcp" then ret baseUrl
    else call (NewURLWithBase "/mcp" baseUrl) (URL_with_base "/mcp" baseUrl) in
  call (Construct (StreamableHTTPClientTransport mcpUrl))
       (Returned (StreamableHTTPClientTransport mcpUrl)).

(** The loop of lines 44-50: the entries of [process.env] whose value is
    defined. *)
Definition processEnv : gmap string string :=
  map_fold
    (fun key value acc =>
       match value with
       | Some v => <[key := v]> acc
       | None => acc
       end)
    ∅ process_env.

(** The [env] of lines 54-57. *)
Definition stdio_env : gmap string string :=
  let defaultEnv := getDefaultEnvironment in
  spread processEnv defaultEnv.

(** [function createStdioTransport(options)] *)
Definition createStdioTransport (options : TransportOptions) : F Transport :=
  let args := default [] (args options) in
  let env := stdio_env in
  let command := default "" (command options) in
  let+ actual := call (FindActualExecutable command args)
                      (findActualExecutable command args) in
  let t := StdioClientTransport (fst actual) (snd actual) env "pipe" in
  call (Construct t) (Returned t).

(** [function wrapTransportWithDebugLogging(transport, debugBasePath)] *)
Definition wrapTransportWithDebugLogging (transport : Transport)
    (debugBasePath : string) : F Transport :=
  let t := DebugTransportWrapper transport debugBasePath in
  call (Construct t) (Returned t).

(** [export function createTransport(options)] *)
Definition createTransport (options : TransportOptions) : F Transport :=
  try_catch
    (let+ transport :=
       if String.eqb (transportType options) "stdio" then
         createStdioTransport options
       else if String.eqb (transportType options) "sse" then
         createSSETransport options
       else if String.eqb (transportType options) "http" then
         createHTTPTransport options
       else
         throw (mkError ("Unsupported transport type: " +:+ transportType options)
                        None) in
     match truthy (process_env !! "MCP_TRANSPORT_DEBUG_FILE") with
     | Some debugBasePath => wrapTransportWithDebugLogging transport debugBasePath
     | None => ret transport
     end)
    (fun error =>
       throw (mkError ("Failed to create transport: " +:+ message error) None)).

(** The error [createTransport] throws for the underlying [cause]. *)
Definition creation_error (cause : Error) : Error :=
  mkError ("Failed to create transport: " +:+ message cause) None.

(** The transport [createTransport] hands out for the SDK transport [t]:
    [t] itself, or the logging decorator around it when
    [MCP_TRANSPORT_DEBUG_FILE] is set. *)
Definition debug_wrap (t : Transport) : Transport :=
  match truthy (process_env !! "MCP_TRANSPORT_DEBUG_FILE") with
  | Some debugBasePath => DebugTransportWrapper t debugBasePath
  | None => t
  end.

End Factory.

(** The kinds of calls, to count them. *)
Inductive CallKind :=
| KNewURL | KNewURLWithBase | KFindActualExecutable
| KConstructTransport | KConstructWrapper.

#[global] Instance CallKind_eq_dec : EqDecision CallKind.
Proof. solve_decision. Defined.

Definition call_kind (c : Call) : CallKind :=
  match c with
  | NewURL _ => KNewURL
  | NewURLWithBase _ _ => KNewURLWithBase
  | FindActualExecutable _ _ => KFindActualExecutable
  | Construct (DebugTransportWrapper _ _) => KConstructWrapper
  | Construct _ => KConstructTransport
  end.

(** A platform to evaluate the factory on: a parser for [http://] URLs
    without credentials, executable resolution that finds nothing to
    resolve (the command comes back as given), and a small environment. *)
Fixpoint split_at (stop : Ascii.ascii -> bool) (s : string) : string * string :=
  match s with
  | EmptyString => (EmptyString, EmptyString)
  | String c rest =>
      if stop c then (EmptyString, s)
      else let '(a, b) := split_at stop rest in (String c a, b)
  end.

Definition one_of (cs : list Ascii.ascii) (c : Ascii.ascii) : bool :=
  existsb (Ascii.eqb c) cs.

Definition parse_http (input : string) : Outcome URL :=
  if String.prefix "http://" input then
    let rest := String.substring 7 (String.length input - 7) input in
    let '(host, rest) := split_at (one_of ["/"; "?"; "#"]%char) rest in
    let '(path, rest) := split_at (one_of ["?"; "#"]%char) rest in
    let '(query, fragment) := split_at (one_of ["#"]%char) rest in
    if String.eqb host "" then Thrown (mkError "Invalid URL" None)
    else
      Returned (mkURL "http:" "" "" host
                      (if String.eqb path "" then "/" else path)
                      (if String.eqb query "?" then "" else query)
                      (if String.eqb fragment "#" then "" else fragment)
                      false)
  else Thrown (mkError "Invalid URL" None).

Definition example_platform (debug : option string) : Platform :=
  {| new_URL := parse_http;
     findActualExecutable := fun command args => Returned (command, args);
     getDefaultEnvironment := {[ "PATH" := "/usr/bin"; "HOME" := "/home/sdk" ]};
     process_env :=
       <["MCP_TRANSPORT_DEBUG_FILE" := debug]>
         {[ "PATH" := Some "/opt/bin:/usr/bin"; "EDITOR" := Some "vi";
            "UNSET" := None ]} |}.

End TransportFactory.

(** ** [scripts/validate-platform-dependencies.js]: the helpers (lines 319-359) *)

Module PlatformDependencies.

(** [s.lastIndexOf(needle)]: the position of the last occurrence of
    [needle] in [s]; [None] is [-1]. *)
Fixpoint lastIndexOf (s needle : string) : option nat :=
  match s with
  | EmptyString => if String.prefix needle "" then Some 0 else None
  | String _ rest =>
      match lastIndexOf rest needle with
      | Some i => Some (S i)
      | None => if String.prefix needle s then Some 0 else None
      end
  end.

(** [s.substring(start)]: what follows the first [start] characters. *)
Fixpoint substring_from (start : nat) (s : string) : string :=
  match start, s with
  | O, _ => s
  | S n, String _ rest => substring_from n rest
  | S _, EmptyString => ""
  end.

(** [getPackageNameFromPath(pkgPath)] (lines 321-328). *)
Definition getPackageNameFromPath (pkgPath : string) : string :=
  match lastIndexOf pkgPath "node_modules/" with
  | Some index => substring_from (index + 13) pkgPath
  | None => pkgPath
  end.

(** What [traceToWorkspace] returns when it does not return [null]. *)
Record Owner := mkOwner {
  workspace : string;
  directDependency : string
}.

(** [const isWorkspace = !current.includes("node_modules") || current === ""] *)
Definition isWorkspace (current : string) : bool :=
  negb (Js.includes current "node_modules") || String.eqb current "".

(** The [while (queue.length > 0)] loop of [traceToWorkspace].  [fuel]
    bounds the number of iterations; the outer [None] is a loop that has
    not finished within it, [Some None] is [return null].  An item of the
    queue is the pair of its [path] and its [child].  [parentMap] is the
    [Map] from a path to the [Set] of the paths that depend on it, a set
    being read in the order of insertion. *)
Fixpoint traceLoop (parentMap : gmap string (list string)) (fuel : nat)
    (queue : list (string * string)) (visited : gset string)
  : option (option Owner) :=
  match fuel with
  | O => None
  | S fuel =>
      match queue with
      | [] => Some None
      | (current, child) :: queue =>
          if bool_decide (current ∈ visited)
          then traceLoop parentMap fuel queue visited
          else
            let visited := {[current]} ∪ visited in
            if isWorkspace current
            then Some (Some (mkOwner current child))
            else
              let parents := default [] (parentMap !! current) in
              traceLoop parentMap fuel
                (queue ++ ((fun parent => (parent, current)) <$> parents))
                visited
      end
  end.

(** [traceToWorkspace(startPath, parentMap)] (lines 330-359). *)
Definition traceToWorkspace (fuel : nat) (startPath : string)
    (parentMap : gmap string (list string)) : option (option Owner) :=
  traceLoop parentMap fuel [(startPath, startPath)] ∅.

(** [parent] is recorded in [parentMap] as depending on [child]. *)
Definition dependent (parentMap : gmap string (list string))
    (child parent : string) : Prop :=
  parent ∈ default [] (parentMap !! child).

(** The number of edges of the graph: the sizes of the sets of
    [parentMap], added up. *)
Definition edges (parentMap : gmap string (list string)) : nat :=
  map_fold (fun _ parents n => length parents + n) 0 parentMap.

End PlatformDependencies.

(** ** Readings of histories, used to state properties *)

Module McpProxyViews.

Import Js McpProxy.

(** The console line of lines 70-72 of [mcpProxy.ts]. *)
Definition is_session_report (a : Action) : bool :=
  match a with
  | ConsoleError text => String.prefix "Proxy  <-> Server sessionId: " text
  | _ => false
  end.

(** The value [transportToServer.sessionId] had at the first
    [transportToServer.onmessage] of a history, if there was one. *)
Fixpoint first_server_session (evs : list Event) : option (option string) :=
  match evs with
  | [] => None
  | ServerOnMessage _ sessionId :: _ => Some sessionId
  | _ :: rest => first_server_session rest
  end.

End McpProxyViews.

Module DebugLoggerViews.

Import Js Sys DebugLogger.

(** The record a call writes, for a logger of role [role this] in the
    process [pid]: the fields the three methods fill in. *)
Definition written_by (this : DebugLogger) (pid : nat) (c : LogCall)
    (e : DebugLogEntry.t) : Prop :=
  DebugLogEntry.role e = role this
  /\ DebugLogEntry.pid e = pid
  /\ match c with
     | CallLogMessage direction message =>
         DebugLogEntry.direction e = direction
         /\ DebugLogEntry.message e = Some message
         /\ DebugLogEntry.error e = None
     | CallLogError error =>
         DebugLogEntry.direction e = "error"
         /\ DebugLogEntry.message e = None
         /\ DebugLogEntry.error e = Some (Js.message error)
     | CallLogClose =>
         DebugLogEntry.direction e = "close"
         /\ DebugLogEntry.message e = None
         /\ DebugLogEntry.error e = None
     end.

(** The calls of a sequence up to its first [logClose()], that one
    included. *)
Fixpoint until_close (cs : list LogCall) : list LogCall :=
  match cs with
  | [] => []
  | CallLogClose :: _ => [CallLogClose]
  | c :: rest => c :: until_close rest
  end.

End DebugLoggerViews.

Module CliWrapperUse.

Import Js Sys CliDebugTransportWrapper.

(** What the rest of the program and the wrapped transport can do with
    a wrapper of [cli/src/transport.ts]. *)
Inductive Operation :=
| DoStart
| DoSend (message : JSON) (options : option JSON)
| DoClose
(* [wrapper.onmessage = callback] and the like, by the kind of [ev] *)
| DoAssign (ev : TransportEvent) (callback : option Callback)
(* the wrapped transport raises [ev] *)
| DoFire (ev : TransportEvent).

Definition perform (this : Wrapper) (op : Operation) : M Wrapper :=
  match op with
  | DoStart => let* r := start this in ret (fst r)
  | DoSend message options => let* r := send this message options in ret (fst r)
  | DoClose => let* r := close this in ret (fst r)
  | DoAssign ev callback => ret (assign this ev callback)
  | DoFire ev => fire this ev
  end.

(** The operations of [ops] one after the other, each awaited. *)
Fixpoint perform_all (this : Wrapper) (ops : list Operation) : M Wrapper :=
  match ops with
  | [] => ret this
  | op :: rest =>
      let* this' := perform this op in
      perform_all this' rest
  end.

(** What the file system and the console show of the world. *)
Definition fs_view (w : World) :=
  (files w, console w,
   (faults w Mkdir, faults w Open, faults w Write, faults w Sync,
    faults w CloseFile)).

(** A wrapper that has been through [ensureInitialized()] and has no
    file handle. *)
Definition gave_up (this : Wrapper) : Prop :=
  initialized this = true
  /\ DebugLogger.logFileHandle (debugLogger this) = None.

End CliWrapperUse.

(* ===================================================================== *)
(** * Part II: properties *)
(* ===================================================================== *)

(** ** The debug logger *)

(** Unfolding the primitives of [M]. *)
Ltac unfold_M :=
  unfold Sys.try_catch, Sys.bind, Sys.settle, Sys.attempt, Sys.console_error,
    Sys.now, Sys.getpid, Sys.record_call, Sys.invoke_external, Sys.ret,
    Sys.throw; simpl.

Section LoggerFacts.

Import Js Sys DebugLogger.

Lemma returns_ret {A} (a : A) : returns (ret a).
Proof. intros w. by exists a, w. Qed.

Lemma returns_bind {A B} (m : M A) (k : A -> M B) :
  returns m -> (forall a, returns (k a)) -> returns (bind m k).
Proof.
  intros Hm Hk w. unfold bind.
  destruct (Hm w) as (a & w1 & ->). apply Hk.
Qed.

(** Whatever the body does, a [try] whose handler cannot throw cannot
    throw. *)
Lemma returns_try_catch {A} (body : M A) (handler : Error -> M A) :
  (forall e, returns (handler e)) -> returns (try_catch body handler).
Proof.
  intros Hh w. unfold try_catch.
  destruct (body w) as [[a|e] w1]; [by exists a, w1 | apply Hh].
Qed.

Lemma returns_now : returns now.
Proof. intros w. unfold now. eauto. Qed.

Lemma returns_getpid : returns getpid.
Proof. intros w. unfold getpid. eauto. Qed.

Lemma returns_console_error text : returns (console_error text).
Proof. intros w. unfold console_error. eauto. Qed.

Lemma returns_settle {A} (m : M A) : returns (settle m).
Proof. intros w. unfold settle. destruct (m w). eauto. Qed.

Lemma returns_invoke_external id ev : returns (invoke_external id ev).
Proof. intros w. unfold invoke_external. eauto. Qed.

Create HintDb returns.
#[local] Hint Resolve returns_ret returns_bind returns_try_catch returns_now
  returns_getpid returns_console_error returns_settle
  returns_invoke_external : returns.

Lemma returns_new base r : returns (new base r).
Proof. unfold new. auto with returns. Qed.

Lemma returns_initialize this : returns (initialize this).
Proof. unfold initialize. auto 6 with returns. Qed.

Lemma returns_logMessage this direction message :
  returns (logMessage this direction message).
Proof.
  unfold logMessage. destruct (logFileHandle this); auto 8 with returns.
Qed.

Lemma returns_logError this error : returns (logError this error).
Proof.
  unfold logError. destruct (logFileHandle this); auto 8 with returns.
Qed.

Lemma returns_logClose this : returns (logClose this).
Proof.
  unfold logClose. destruct (logFileHandle this); auto 8 with returns.
Qed.

Lemma returns_call this c : returns (call this c).
Proof.
  destruct c; simpl;
    auto using returns_logMessage, returns_logError, returns_logClose.
Qed.

Lemma returns_run cs : forall this, returns (run this cs).
Proof.
  induction cs as [|c cs IH]; intros this; simpl.
  - apply returns_ret.
  - apply returns_bind; [apply returns_call | auto].
Qed.

(** A logger without a file handle is inert: no call changes the logger
    or anything in the world. *)
Lemma call_without_handle this c w :
  logFileHandle this = None -> call this c w = (Returned this, w).
Proof.
  intros H. destruct c; simpl;
    unfold logMessage, logError, logClose; by rewrite H.
Qed.

Lemma run_without_handle cs : forall this w,
  logFileHandle this = None -> run this cs w = (Returned this, w).
Proof.
  induction cs as [|c cs IH]; intros this w H; simpl; [done|].
  unfold bind. rewrite call_without_handle by done. by apply IH.
Qed.

(** [initialize()] leaves the handle as it was when the file cannot be
    opened. *)
Lemma initialize_open_fails this w :
  open_fails this w = true ->
  exists w', initialize this w = (Returned this, w').
Proof.
  unfold open_fails, initialize, fs_mkdir, fs_open, fails.
  intros H. unfold_M.
  destruct (String.eqb (dirname (logFilePath this)) ".") eqn:Hd; simpl in *.
  - destruct (faults w Open) as [|[e|] l]; try discriminate; simpl; eauto.
  - destruct (faults w Mkdir) as [|[e|] l]; simpl in *; eauto;
      destruct (faults w Open) as [|[e'|] l']; try discriminate; simpl; eauto.
Qed.

(** One call on a logger whose handle is open, where closing a file
    never fails: either the handle stays open and what was appended holds
    no close record, or the call was the [logClose()] that appended the
    close record and dropped the handle. *)
Lemma call_step this c w h :
  logFileHandle this = Some h ->
  Forall (fun o => o = None) (faults w CloseFile) ->
  exists this' w',
    call this c w = (Returned this', w')
    /\ ((logFileHandle this' = Some h
         /\ Forall (fun o => o = None) (faults w' CloseFile)
         /\ exists app,
              log_of w' h = log_of w h ++ app
              /\ Forall (fun e => DebugLogEntry.is_close e = false) app)
        \/ (logFileHandle this' = None
            /\ exists e,
                 log_of w' h = log_of w h ++ [e]
                 /\ DebugLogEntry.is_close e = true)).
Proof.
  intros Hh Hc.
  destruct c as [direction message|error|]; simpl;
    unfold logMessage, logError, logClose, fh_write, fh_sync, fh_close;
    rewrite Hh; unfold_M.
  - destruct (faults w Write) as [|[e|] l]; simpl;
      try (destruct (faults w Sync) as [|[e'|] l']; simpl);
      eexists _, _; (split; [reflexivity|]); left;
      (split; [done|]); (split; [done|]);
      unfold log_of; simpl; rewrite ?lookup_insert_eq; simpl;
      first [ by exists []; rewrite app_nil_r
            | eexists [_]; split; [reflexivity|];
              constructor; [|constructor];
              unfold DebugLogEntry.is_close; simpl;
              by rewrite ?andb_false_r ].
  - destruct (faults w Write) as [|[e|] l]; simpl;
      eexists _, _; (split; [reflexivity|]); left;
      (split; [done|]); (split; [done|]);
      unfold log_of; simpl; rewrite ?lookup_insert_eq; simpl;
      first [ by exists []; rewrite app_nil_r
            | eexists [_]; split; [reflexivity|];
              constructor; [|constructor];
              unfold DebugLogEntry.is_close; simpl;
              by rewrite ?andb_false_r ].
  - destruct (faults w Write) as [|[e|] l] eqn:EW; simpl.
    + destruct (faults w CloseFile) as [|[e'|] l'] eqn:EC; simpl;
        [| by inversion Hc |];
        eexists _, _; (split; [reflexivity|]); right; (split; [done|]);
        unfold log_of; simpl; rewrite ?lookup_insert_eq; simpl;
        eexists; split; reflexivity.
    + eexists _, _. split; [reflexivity|]. left. repeat split; try done.
      exists []. by rewrite app_nil_r.
    + destruct (faults w CloseFile) as [|[e'|] l'] eqn:EC; simpl;
        [| by inversion Hc |];
        eexists _, _; (split; [reflexivity|]); right; (split; [done|]);
        unfold log_of; simpl; rewrite ?lookup_insert_eq; simpl;
        eexists; split; reflexivity.
Qed.

(** X5.  Over the life of a logger, where closing a file never fails
    (writes and syncs may): what a sequence of calls appends to the file
    of the handle is a run of records none of which is a close record,
    followed by at most one close record, after which the handle is
    gone. *)
Lemma close_record_is_last cs : forall this w h,
  logFileHandle this = Some h ->
  Forall (fun o => o = None) (faults w CloseFile) ->
  exists this' w' body tail,
    run this cs w = (Returned this', w')
    /\ log_of w' h = log_of w h ++ body ++ tail
    /\ Forall (fun e => DebugLogEntry.is_close e = false) body
    /\ (tail = []
        \/ exists e, tail = [e] /\ DebugLogEntry.is_close e = true
                     /\ logFileHandle this' = None).
Proof.
  induction cs as [|c cs IH]; intros this w h Hh Hc.
  - exists this, w, [], []. simpl. rewrite app_nil_r. by repeat split; auto.
  - destruct (call_step this c w h Hh Hc)
      as (this1 & w1 & Hcall & [(Hh1 & Hc1 & app & Hlog & Happ)
                               |(Hh1 & e & Hlog & He)]).
    + destruct (IH this1 w1 h Hh1 Hc1)
        as (this' & w' & body & tail & Hrun & Hlog' & Hbody & Htail).
      exists this', w', (app ++ body), tail.
      simpl. unfold bind. rewrite Hcall. split; [exact Hrun|].
      split; [by rewrite Hlog', Hlog, <- !app_assoc|].
      split; [by apply Forall_app|done].
    + exists this1, w1, [], [e].
      simpl. unfold bind. rewrite Hcall.
      split; [by apply run_without_handle|].
      split; [done|]. split; [constructor|]. right. by exists e.
Qed.

(** The constructor opens nothing. *)
Lemma new_has_no_handle base r w :
  exists this, new base r w = (Returned this, w) /\ logFileHandle this = None.
Proof. unfold new. unfold_M. eauto. Qed.

(** C6.  When [initialize()] fails to open the log file, or was never
    called, the logger has no file handle, and then every sequence of
    [logMessage], [logError] and [logClose] calls returns without
    throwing and leaves the logger and the whole world (the files in
    particular) as they were.  And whatever fails inside [initialize()] or
    inside a log write, in whatever state the logger is, the call returns
    normally: no logging failure reaches the caller. *)
Theorem DebugLogger_failures_contained :
  (forall base r w,
     exists this, new base r w = (Returned this, w) /\ logFileHandle this = None)
  /\ (forall this w,
        logFileHandle this = None -> open_fails this w = true ->
        exists w1, initialize this w = (Returned this, w1))
  /\ (forall this cs w,
        logFileHandle this = None -> run this cs w = (Returned this, w))
  /\ (forall this, returns (initialize this))
  /\ (forall this cs, returns (run this cs)).
Proof.
  repeat split.
  - apply new_has_no_handle.
  - intros this w _. apply initialize_open_fails.
  - intros this cs w. apply run_without_handle.
  - apply returns_initialize.
  - intros this cs. apply returns_run.
Qed.

(** A successful [logClose()], step by step. *)
Lemma logClose_success this h w :
  logFileHandle this = Some h ->
  fails Write w = false -> fails CloseFile w = false ->
  exists entry w1,
    logClose this w = (Returned (set_logFileHandle this None), w1)
    /\ DebugLogEntry.direction entry = "close"
    /\ files w1 = <[h := log_of w h ++ [entry]]> (files w)
    /\ faults w1 Write = tail (faults w Write)
    /\ faults w1 CloseFile = tail (faults w CloseFile).
Proof.
  unfold logClose, fh_write, fh_close, fails. intros -> Hw Hc. unfold_M.
  exists (DebugLogEntry.mk (clock w) (S (clock w)) (process_pid w) (role this)
                          "close" None None).
  destruct (faults w Write) as [|[e|] l] eqn:EW; try discriminate; simpl;
    destruct (faults w CloseFile) as [|[e'|] l'] eqn:EC; try discriminate;
    simpl; eexists; (split; [reflexivity|]); simpl; rewrite ?EW, ?EC; auto.
Qed.



End LoggerFacts.

(** Witness of C6: opening the log file fails with [EACCES]; the logger
    stays without handle and three calls on it change nothing. *)
Lemma DebugLogger_failures_contained_witness :
  let w := Sys.example_world (Sys.fault_at Sys.Open (Js.mkError "EACCES" None)) in
  let this := DebugLogger.mk None "/var/log/mcp.proxy.4242" "proxy" in
  let cs := [DebugLogger.CallLogMessage "client->server" Js.JNull;
             DebugLogger.CallLogError (Js.mkError "boom" None);
             DebugLogger.CallLogClose] in
  DebugLogger.open_fails this w = true
  /\ (exists w1, DebugLogger.initialize this w = (Sys.Returned this, w1))
  /\ DebugLogger.run this cs w = (Sys.Returned this, w).
Proof.
  cbv zeta.
  destruct DebugLogger_failures_contained as (_ & Hinit & Hrun & _).
  split; [reflexivity|].
  split; [apply Hinit; reflexivity | apply Hrun; reflexivity].
Defined.



(** ** The forwarding engine *)

Section ProxyFacts.

Import Js McpProxy.

Context {sdk : Sdk}.

Variable debugLogger : bool.

Lemma sent_app t a b : sent t (a ++ b) = sent t a ++ sent t b.
Proof.
  induction a as [|x a IH]; simpl; [done|].
  destruct x as [[] m| | | | |], t; simpl; by rewrite ?IH.
Qed.

Lemma closed_app a b : closed (a ++ b) = closed a ++ closed b.
Proof.
  induction a as [|x a IH]; simpl; [done|].
  destruct x; simpl; by rewrite ?IH.
Qed.

Lemma sent_debugLogger_call t a :
  is_diagnostic a = true -> sent t (debugLogger_call debugLogger a) = [].
Proof. unfold debugLogger_call. by destruct debugLogger, a. Qed.

Lemma closed_debugLogger_call a :
  is_diagnostic a = true -> closed (debugLogger_call debugLogger a) = [].
Proof. unfold debugLogger_call. by destruct debugLogger, a. Qed.

Lemma closed_onClientError e : closed (onClientError e) = [].
Proof. done. Qed.

Lemma closed_onServerError e : closed (onServerError e) = [].
Proof. unfold onServerError. by destruct (_ || _). Qed.

(** A request has an [id]. *)
Lemma isJSONRPCRequest_id m :
  isJSONRPCRequest m = true -> exists id, get "id" m = Some id.
Proof.
  intros H. apply isJSONRPCRequest_sound in H. revert H.
  unfold JSONRPCRequest_shape.
  destruct (get "jsonrpc" m) as [[]|]; try discriminate;
    destruct (get "id" m) as [id|]; try discriminate; eauto.
Qed.

(** Once the client side is marked closed and the server side is not,
    things stay so. *)
Lemma client_closed_first_stable s ev :
  transportToClientClosed s = true -> transportToServerClosed s = false ->
  transportToClientClosed (fst (step debugLogger s ev)) = true
  /\ transportToServerClosed (fst (step debugLogger s ev)) = false
  /\ closed (snd (step debugLogger s ev))
     = (if is_ClientOnClose ev then [transportToServer] else []).
Proof.
  intros Hc Hs. destruct s as [c v r]; simpl in *; subst.
  destruct ev; simpl;
    unfold transportToClient_onclose, transportToServer_onclose; simpl;
    repeat case_match; simpl;
    rewrite ?closed_app, ?closed_debugLogger_call, ?closed_onClientError,
      ?closed_onServerError by done; auto.
Qed.

Lemma server_closed_first_stable s ev :
  transportToClientClosed s = false -> transportToServerClosed s = true ->
  transportToClientClosed (fst (step debugLogger s ev)) = false
  /\ transportToServerClosed (fst (step debugLogger s ev)) = true
  /\ closed (snd (step debugLogger s ev))
     = (if is_ServerOnClose ev then [transportToClient] else []).
Proof.
  intros Hc Hs. destruct s as [c v r]; simpl in *; subst.
  destruct ev; simpl;
    unfold transportToClient_onclose, transportToServer_onclose; simpl;
    repeat case_match; simpl;
    rewrite ?closed_app, ?closed_debugLogger_call, ?closed_onClientError,
      ?closed_onServerError by done; auto.
Qed.

Lemma run_client_closed_first evs : forall s,
  transportToClientClosed s = true -> transportToServerClosed s = false ->
  closed (snd (run debugLogger s evs))
  = repeat transportToServer (length (filter (fun ev => is_ClientOnClose ev = true) evs)).
Proof.
  induction evs as [|ev evs IH]; intros s Hc Hs; [done|].
  destruct (client_closed_first_stable s ev Hc Hs) as (Hc' & Hs' & Hcl).
  simpl. destruct (step debugLogger s ev) as [s1 a1] eqn:E1.
  specialize (IH s1 Hc' Hs').
  destruct (run debugLogger s1 evs) as [s2 a2]. simpl in *.
  rewrite closed_app, Hcl, IH.
  rewrite filter_cons. destruct ev; simpl; done.
Qed.

Lemma run_server_closed_first evs : forall s,
  transportToClientClosed s = false -> transportToServerClosed s = true ->
  closed (snd (run debugLogger s evs))
  = repeat transportToClient (length (filter (fun ev => is_ServerOnClose ev = true) evs)).
Proof.
  induction evs as [|ev evs IH]; intros s Hc Hs; [done|].
  destruct (server_closed_first_stable s ev Hc Hs) as (Hc' & Hs' & Hcl).
  simpl. destruct (step debugLogger s ev) as [s1 a1] eqn:E1.
  specialize (IH s1 Hc' Hs').
  destruct (run debugLogger s1 evs) as [s2 a2]. simpl in *.
  rewrite closed_app, Hcl, IH.
  rewrite filter_cons. destruct ev; simpl; done.
Qed.

(** C1, as amended.  When the [send] that forwards a client message [m]
    to the server is rejected with [error], the engine calls [send] on
    the client transport exactly once if [isJSONRPCRequest(m)] holds and
    the client side is not marked closed, and not at all otherwise.  The
    guard is the SDK's: it holds of well-formed requests only, so there
    is no reply for a message without an [id] (a notification) and none
    for a message without a [method] (a response, although it carries an
    [id]), whatever the SDK.  The message sent is the object with
    [jsonrpc] "2.0", the [id] of [m] and an [error] of code -32001 whose
    [message] is that of the failure.  Handling the client message
    itself sends nothing to the client, and the state is not changed by
    the failure. *)
Theorem failed_forward_error_response s m error :
  sent transportToClient (snd (step debugLogger s (ServerSendRejected m error)))
  = (if isJSONRPCRequest m && negb (transportToClientClosed s)
     then [errorResponse (get "id" m) error] else [])
  /\ (length (sent transportToClient
                (snd (step debugLogger s (ServerSendRejected m error)))) = 1
      <-> isJSONRPCRequest m = true /\ transportToClientClosed s = false)
  /\ fst (step debugLogger s (ServerSendRejected m error)) = s
  /\ sent transportToClient (snd (step debugLogger s (ClientOnMessage m))) = []
  /\ (isJSONRPCRequest m = true ->
      exists id,
        get "id" m = Some id
        /\ get "jsonrpc" (errorResponse (get "id" m) error) = Some (JString "2.0")
        /\ get "id" (errorResponse (get "id" m) error) = Some id
        /\ (get "error" (errorResponse (get "id" m) error) ≫= get "code")
           = Some (JNumber (-32001))
        /\ (get "error" (errorResponse (get "id" m) error) ≫= get "message")
           = Some (JString (message error)))
  /\ (JSONRPCRequest_shape m = false ->
      sent transportToClient
        (snd (step debugLogger s (ServerSendRejected m error))) = [])
  /\ (get "id" m = None \/ get "method" m = None ->
      JSONRPCRequest_shape m = false).
Proof.
  assert (Hsent :
    sent transportToClient (snd (step debugLogger s (ServerSendRejected m error)))
    = (if isJSONRPCRequest m && negb (transportToClientClosed s)
       then [errorResponse (get "id" m) error] else [])).
  { simpl. rewrite sent_app, sent_debugLogger_call by done.
    by destruct (_ && _). }
  split; [exact Hsent|]. split; [|split; [done|split; [|split; [|split]]]].
  - rewrite Hsent.
    destruct (isJSONRPCRequest m), (transportToClientClosed s); simpl;
      split; try done; intros []; done.
  - simpl. by rewrite sent_app, sent_debugLogger_call.
  - intros Hreq. destruct (isJSONRPCRequest_id m Hreq) as [id Hid].
    exists id. rewrite Hid. by repeat split.
  - intros Hshape. rewrite Hsent.
    destruct (isJSONRPCRequest m) eqn:Hreq; [|done].
    apply isJSONRPCRequest_sound in Hreq. congruence.
  - unfold JSONRPCRequest_shape. intros [-> | ->]; repeat case_match; done.
Qed.

(** C2, as amended.  From a state in which neither side is marked
    closed: the first [onclose] of one side calls [close()] on the
    paired transport exactly once and on no other; the [onclose] of the
    paired side that follows is a no-op, so the first side is not closed
    in return.  A further [onclose] of the first side is not
    suppressed: whatever events follow, [close()] is called on the
    paired transport once per [onclose] event of the first side, and
    never on the first side. *)
Theorem close_propagation reported :
  let s0 := mkState false false reported in
  (let s1 := fst (step debugLogger s0 ClientOnClose) in
   closed (snd (step debugLogger s0 ClientOnClose)) = [transportToServer]
   /\ step debugLogger s1 ServerOnClose = (s1, [])
   /\ forall evs,
        closed (snd (run debugLogger s1 evs))
        = repeat transportToServer
            (length (filter (fun ev => is_ClientOnClose ev = true) evs)))
  /\
  (let s1 := fst (step debugLogger s0 ServerOnClose) in
   closed (snd (step debugLogger s0 ServerOnClose)) = [transportToClient]
   /\ step debugLogger s1 ClientOnClose = (s1, [])
   /\ forall evs,
        closed (snd (run debugLogger s1 evs))
        = repeat transportToClient
            (length (filter (fun ev => is_ServerOnClose ev = true) evs))).
Proof.
  simpl. unfold transportToClient_onclose, transportToServer_onclose. simpl.
  rewrite !closed_app, !closed_debugLogger_call by done.
  repeat split; try done; intros evs.
  - by apply run_client_closed_first.
  - by apply run_server_closed_first.
Qed.

(** Events that are no [onclose] never touch the two closed flags and
    never call [close()]. *)
Lemma step_not_onclose s ev :
  is_onclose ev = false ->
  transportToClientClosed (fst (step debugLogger s ev)) = transportToClientClosed s
  /\ transportToServerClosed (fst (step debugLogger s ev)) = transportToServerClosed s
  /\ closed (snd (step debugLogger s ev)) = [].
Proof.
  intros H. destruct ev; try discriminate; simpl;
    repeat case_match; simpl;
    rewrite ?closed_app, ?closed_debugLogger_call, ?closed_onClientError,
      ?closed_onServerError by done; auto.
Qed.

Lemma run_not_onclose evs : forall s,
  forallb (fun ev => negb (is_onclose ev)) evs = true ->
  transportToClientClosed (fst (run debugLogger s evs)) = transportToClientClosed s
  /\ transportToServerClosed (fst (run debugLogger s evs)) = transportToServerClosed s
  /\ closed (snd (run debugLogger s evs)) = [].
Proof.
  induction evs as [|ev evs IH]; intros s H; [done|].
  simpl in H. apply andb_prop in H as [Hev Hevs].
  apply negb_true_iff in Hev.
  destruct (step_not_onclose s ev Hev) as (H1 & H2 & H3).
  simpl. destruct (step debugLogger s ev) as [s1 a1].
  destruct (IH s1 Hevs) as (H4 & H5 & H6).
  destruct (run debugLogger s1 evs) as [s2 a2]. simpl in *.
  rewrite closed_app, H3, H6. repeat split; congruence.
Qed.

(** C3.  An [onerror] event and the rejection of a [send] leave the
    state of the engine, the two closed flags included, as it was, and
    call [close()] on neither transport: every action they cause is a
    diagnostic (logger or console), or the error response sent to the
    client for the rejected message.  A [close()] call is always the
    doing of an [onclose] event, and it is on the paired transport; so a
    history without [onclose] events closes nothing and leaves both
    flags unset. *)
Theorem failures_never_close s ev :
  (is_failure ev = true ->
   fst (step debugLogger s ev) = s
   /\ closed (snd (step debugLogger s ev)) = []
   /\ Forall
        (fun a =>
           is_diagnostic a = true
           \/ exists m error,
                ev = ServerSendRejected m error
                /\ a = Send transportToClient (errorResponse (get "id" m) error))
        (snd (step debugLogger s ev)))
  /\ (forall t, In (Close t) (snd (step debugLogger s ev)) ->
        (ev = ClientOnClose /\ t = transportToServer)
        \/ (ev = ServerOnClose /\ t = transportToClient))
  /\ (forall evs,
        forallb (fun ev => negb (is_onclose ev)) evs = true ->
        transportToClientClosed (fst (run debugLogger s evs))
        = transportToClientClosed s
        /\ transportToServerClosed (fst (run debugLogger s evs))
           = transportToServerClosed s
        /\ closed (snd (run debugLogger s evs)) = []).
Proof.
  split; [|split].
  - intros H. destruct ev; try discriminate; simpl;
      (split; [done|]);
      rewrite ?closed_app, ?closed_debugLogger_call, ?closed_onClientError,
        ?closed_onServerError by done;
      unfold debugLogger_call, onClientError, onServerError;
      repeat case_match; simpl; (split; [done|]);
      repeat match goal with
             | |- Forall _ [] => constructor
             | |- Forall _ (_ :: _) => constructor
             end;
      first [by left | right; eauto].
  - intros t Hin.
    destruct ev; simpl in Hin;
      unfold transportToClient_onclose, transportToServer_onclose,
        debugLogger_call, onClientError, onServerError in Hin;
      repeat case_match; simpl in Hin;
      intuition (try discriminate);
      match goal with H : Close _ = Close _ |- _ => inversion H; auto end.
  - intros evs. apply run_not_onclose.
Qed.

(** C4.  A message delivered by [onmessage] of either transport is
    passed to [send] of the paired transport exactly once and as it
    came; nothing is sent back on the transport it came from.  These are
    all the [send] calls of the exchange when the forwarding [send] is
    not rejected. *)
Theorem forwarding_is_verbatim s m sessionId :
  sent transportToServer (snd (step debugLogger s (ClientOnMessage m))) = [m]
  /\ sent transportToClient (snd (step debugLogger s (ClientOnMessage m))) = []
  /\ sent transportToClient (snd (step debugLogger s (ServerOnMessage m sessionId))) = [m]
  /\ sent transportToServer (snd (step debugLogger s (ServerOnMessage m sessionId))) = [].
Proof.
  simpl. rewrite !sent_app, !sent_debugLogger_call by done.
  repeat split; try done; repeat case_match; done.
Qed.

End ProxyFacts.

(** The schema is strict: a request parses, a request with a [_meta] in
    its [params] parses, and an envelope of the right shape that has an
    unknown key, or [params] that are no object, does not. *)
Example sdk_schema_is_strict :
  let request := [("jsonrpc", Js.JString "2.0"); ("id", Js.JNumber 1);
                  ("method", Js.JString "x")] in
  McpProxy.isJSONRPCRequest (Js.JObject request) = true
  /\ McpProxy.isJSONRPCRequest
       (Js.JObject
          (request
           ++ [("params",
                Js.JObject [("_meta",
                             Js.JObject [("progressToken", Js.JNumber 7)])])]))
     = true
  /\ McpProxy.JSONRPCRequest_shape
       (Js.JObject (request ++ [("extra", Js.JBool true)])) = true
  /\ McpProxy.isJSONRPCRequest
       (Js.JObject (request ++ [("extra", Js.JBool true)])) = false
  /\ McpProxy.isJSONRPCRequest
       (Js.JObject (request ++ [("params", Js.JString "p")])) = false
  /\ McpProxy.isJSONRPCRequest
       (Js.JObject (request ++ [("params", Js.JArray [])])) = false.
Proof. cbv zeta. repeat split. Qed.

(** The counterexample to C1 as stated: a response carries a correlation
    id, the client side is open, the forward fails, and nothing is sent
    back to the client. *)
Lemma response_forward_failure_unanswered :
  let m := Js.JObject [("jsonrpc", Js.JString "2.0"); ("id", Js.JNumber 1);
                       ("result", Js.JObject [])] in
  let error := Js.mkError "ECONNREFUSED" None in
  Js.get "id" m = Some (Js.JNumber 1)
  /\ McpProxy.transportToClientClosed McpProxy.initial = false
  /\ McpProxy.sent McpProxy.transportToClient
       (snd (McpProxy.step false McpProxy.initial
               (McpProxy.ServerSendRejected m error))) = [].
Proof. cbv zeta. repeat split. Qed.

(** Witness of C1: the request [{id: 1, method: "x"}] and the failure
    [ECONNREFUSED]. *)
Lemma failed_forward_error_response_witness :
  let m := Js.JObject [("jsonrpc", Js.JString "2.0"); ("id", Js.JNumber 1);
                       ("method", Js.JString "x")] in
  let error := Js.mkError "ECONNREFUSED" None in
  McpProxy.isJSONRPCRequest m = true
  /\ McpProxy.sent McpProxy.transportToClient
       (snd (McpProxy.step false McpProxy.initial
               (McpProxy.ServerSendRejected m error)))
     = [Js.JObject
          [("jsonrpc", Js.JString "2.0"); ("id", Js.JNumber 1);
           ("error",
            Js.JObject [("code", Js.JNumber (-32001));
                        ("message", Js.JString "ECONNREFUSED");
                        ("data", Js.JError error)])]]
  /\ exists id,
       Js.get "id" m = Some id
       /\ Js.get "jsonrpc" (McpProxy.errorResponse (Js.get "id" m) error)
          = Some (Js.JString "2.0")
       /\ Js.get "id" (McpProxy.errorResponse (Js.get "id" m) error) = Some id
       /\ (Js.get "error" (McpProxy.errorResponse (Js.get "id" m) error)
             ≫= Js.get "code") = Some (Js.JNumber (-32001))
       /\ (Js.get "error" (McpProxy.errorResponse (Js.get "id" m) error)
             ≫= Js.get "message") = Some (Js.JString (Js.message error)).
Proof.
  cbv zeta.
  destruct (failed_forward_error_response false McpProxy.initial
              (Js.JObject [("jsonrpc", Js.JString "2.0"); ("id", Js.JNumber 1);
                           ("method", Js.JString "x")])
              (Js.mkError "ECONNREFUSED" None)) as (H1 & _ & _ & _ & H5).
  split; [reflexivity|]. split; [exact H1|]. apply H5. reflexivity.
Defined.

(** The counterexample to C2 as stated: the client closes, the server's
    [onclose] follows, and a second [onclose] of the client calls
    [close()] on the server transport again. *)
Lemma second_onclose_closes_again :
  let s1 := fst (McpProxy.run true McpProxy.initial
                   [McpProxy.ClientOnClose; McpProxy.ServerOnClose]) in
  McpProxy.closed
    (snd (McpProxy.run true McpProxy.initial
            [McpProxy.ClientOnClose; McpProxy.ServerOnClose]))
  = [McpProxy.transportToServer]
  /\ snd (McpProxy.step true s1 McpProxy.ClientOnClose)
     = [McpProxy.LogClose; McpProxy.Close McpProxy.transportToServer]
  /\ McpProxy.closed
       (snd (McpProxy.run true McpProxy.initial
               [McpProxy.ClientOnClose; McpProxy.ServerOnClose;
                McpProxy.ClientOnClose]))
     = [McpProxy.transportToServer; McpProxy.transportToServer].
Proof. cbv zeta. repeat split. Qed.

(** Witness of C3: a rejected forward of a request, then an [onerror] of
    each side. *)
Lemma failures_never_close_witness :
  let m := Js.JObject [("jsonrpc", Js.JString "2.0"); ("id", Js.JNumber 7);
                       ("method", Js.JString "tools/call")] in
  let error := Js.mkError "connect ECONNREFUSED 127.0.0.1:3000" None in
  let ev := McpProxy.ServerSendRejected m error in
  let evs := [McpProxy.ClientOnMessage m; ev; McpProxy.ClientOnError error;
              McpProxy.ServerOnError error] in
  McpProxy.is_failure ev = true
  /\ forallb (fun ev => negb (McpProxy.is_onclose ev)) evs = true
  /\ fst (McpProxy.step true McpProxy.initial ev) = McpProxy.initial
  /\ McpProxy.closed (snd (McpProxy.step true McpProxy.initial ev)) = []
  /\ McpProxy.closed (snd (McpProxy.run true McpProxy.initial evs)) = [].
Proof.
  cbv zeta.
  destruct (failures_never_close true McpProxy.initial
              (McpProxy.ServerSendRejected
                 (Js.JObject [("jsonrpc", Js.JString "2.0"); ("id", Js.JNumber 7);
                              ("method", Js.JString "tools/call")])
                 (Js.mkError "connect ECONNREFUSED 127.0.0.1:3000" None)))
    as (Hfail & _ & Hrun).
  split; [reflexivity|]. split; [reflexivity|].
  destruct (Hfail eq_refl) as (H1 & H2 & _).
  split; [exact H1|]. split; [exact H2|].
  apply Hrun. reflexivity.
Defined.

(** ** The logging decorators *)

Section QuietFacts.

Import Js Sys DebugLogger.

Lemma quiet_ret {A} (a : A) : quiet (ret a).
Proof. done. Qed.

Lemma quiet_bind {A B} (m : M A) (k : A -> M B) :
  quiet m -> (forall a, quiet (k a)) -> quiet (bind m k).
Proof.
  intros Hm Hk w. unfold bind. specialize (Hm w).
  destruct (m w) as [[a|e] w1]; simpl in *; [|done].
  rewrite <- Hm. apply Hk.
Qed.

Lemma quiet_try_catch {A} (body : M A) (handler : Error -> M A) :
  quiet body -> (forall e, quiet (handler e)) -> quiet (try_catch body handler).
Proof.
  intros Hb Hh w. unfold try_catch. specialize (Hb w).
  destruct (body w) as [[a|e] w1]; simpl in *; [done|].
  rewrite <- Hb. apply Hh.
Qed.

Lemma quiet_now : quiet now.
Proof. done. Qed.

Lemma quiet_getpid : quiet getpid.
Proof. done. Qed.

Lemma quiet_console_error text : quiet (console_error text).
Proof. done. Qed.

Lemma quiet_fs_mkdir dir : quiet (fs_mkdir dir).
Proof.
  intros w. unfold fs_mkdir, attempt.
  by destruct (faults w Mkdir) as [|[e|] l].
Qed.

Lemma quiet_fs_open path : quiet (fs_open path).
Proof.
  intros w. unfold fs_open, bind, attempt.
  by destruct (faults w Open) as [|[e|] l].
Qed.

Lemma quiet_fh_write h line : quiet (fh_write h line).
Proof.
  intros w. unfold fh_write, bind, attempt.
  by destruct (faults w Write) as [|[e|] l].
Qed.

Lemma quiet_fh_sync h : quiet (fh_sync h).
Proof.
  intros w. unfold fh_sync, attempt.
  by destruct (faults w Sync) as [|[e|] l].
Qed.

Lemma quiet_fh_close h : quiet (fh_close h).
Proof.
  intros w. unfold fh_close, attempt.
  by destruct (faults w CloseFile) as [|[e|] l].
Qed.

Create HintDb quiet.
#[local] Hint Resolve quiet_ret quiet_bind quiet_try_catch quiet_now
  quiet_getpid quiet_console_error quiet_fs_mkdir quiet_fs_open
  quiet_fh_write quiet_fh_sync quiet_fh_close : quiet.

Lemma quiet_new base r : quiet (new base r).
Proof. unfold new. auto with quiet. Qed.

Lemma quiet_initialize this : quiet (initialize this).
Proof.
  unfold initialize. apply quiet_try_catch; [|auto with quiet].
  destruct (String.eqb _ _); auto 6 with quiet.
Qed.

Lemma quiet_logMessage this direction message :
  quiet (logMessage this direction message).
Proof.
  unfold logMessage. destruct (logFileHandle this); auto 10 with quiet.
Qed.

Lemma quiet_logError this error : quiet (logError this error).
Proof.
  unfold logError. destruct (logFileHandle this); auto 10 with quiet.
Qed.

Lemma quiet_logClose this : quiet (logClose this).
Proof.
  unfold logClose. destruct (logFileHandle this); auto 10 with quiet.
Qed.

(** Running a computation that returns and is quiet, then going on. *)
Lemma bind_silent {A B} (m : M A) (k : A -> M B) w :
  returns m -> quiet m ->
  exists a w1,
    m w = (Returned a, w1)
    /\ transport_view w1 = transport_view w
    /\ bind m k w = k a w1.
Proof.
  intros Hr Hq. destruct (Hr w) as (a & w1 & E). specialize (Hq w).
  exists a, w1. unfold bind. rewrite E in *. auto.
Qed.

End QuietFacts.

Section CliWrapperFacts.

Import Js Sys CliDebugTransportWrapper.

(** [ensureInitialized()] cannot throw, is not seen by the wrapped
    transport, and leaves the wrapped transport in place. *)
Lemma cli_ensureInitialized_spec this w :
  exists l w1,
    ensureInitialized this w = (Returned (mk (wrappedTransport this) l true), w1)
    /\ transport_view w1 = transport_view w.
Proof.
  unfold ensureInitialized. destruct this as [t l i]; simpl.
  destruct i; [by exists l, w|].
  destruct (bind_silent (DebugLogger.initialize l)
              (fun l' => ret (mk t l' true)) w
              (returns_initialize l) (quiet_initialize l))
    as (l' & w1 & _ & Hv & ->).
  by exists l', w1.
Qed.

(** Logging what an event carries, as the arrow functions of the
    setters do before they call their callback. *)
Lemma cli_logging_spec this ev (k : Wrapper -> M Wrapper) w :
  exists l w1,
    bind
      match ev with
      | OnMessage message _ =>
          let* this := ensureInitialized this in
          let* l := DebugLogger.logMessage (debugLogger this) "recv" message in
          ret (set_debugLogger this l)
      | OnError error =>
          let* this := ensureInitialized this in
          let* l := DebugLogger.logError (debugLogger this) error in
          ret (set_debugLogger this l)
      | OnClose =>
          let* l := DebugLogger.logClose (debugLogger this) in
          ret (set_debugLogger this l)
      end k w
    = k (mk (wrappedTransport this) l
            match ev with OnClose => initialized this | _ => true end) w1
    /\ transport_view w1 = transport_view w.
Proof.
  destruct ev as [message extra|error|].
  - unfold bind at 1 2.
    destruct (cli_ensureInitialized_spec this w) as (l0 & w0 & -> & Hv0). simpl.
    destruct (bind_silent (DebugLogger.logMessage l0 "recv" message)
                (fun l => ret (set_debugLogger (mk (wrappedTransport this) l0 true) l))
                w0 (returns_logMessage _ _ _) (quiet_logMessage _ _ _))
      as (l1 & w1 & _ & Hv1 & ->).
    exists l1, w1. split; [done | congruence].
  - unfold bind at 1 2.
    destruct (cli_ensureInitialized_spec this w) as (l0 & w0 & -> & Hv0). simpl.
    destruct (bind_silent (DebugLogger.logError l0 error)
                (fun l => ret (set_debugLogger (mk (wrappedTransport this) l0 true) l))
                w0 (returns_logError _ _) (quiet_logError _ _))
      as (l1 & w1 & _ & Hv1 & ->).
    exists l1, w1. split; [done | congruence].
  - unfold bind at 1.
    destruct (bind_silent (DebugLogger.logClose (debugLogger this))
                (fun l => ret (set_debugLogger this l))
                w (returns_logClose _) (quiet_logClose _))
      as (l1 & w1 & _ & Hv1 & ->).
    exists l1, w1. split; [done | congruence].
Qed.

(** X9.  The cli decorator delegates [start], [send] and [close]: the
    wrapped transport receives the same call, once, with the same
    arguments, the call settles as the wrapped transport's call does,
    whatever happens to the logging, and no callback of another component
    runs. *)
Lemma cli_wrapper_delegates this w :
  (exists this' w',
     start this w = (Returned (this', fst (attempt InnerStart w)), w')
     /\ calls w' = calls w ++ [TStart] /\ invoked w' = invoked w
     /\ wrappedTransport this' = wrappedTransport this)
  /\ (forall message options, exists this' w',
        send this message options w
        = (Returned (this', fst (attempt InnerSend w)), w')
        /\ calls w' = calls w ++ [TSend message options]
        /\ invoked w' = invoked w
        /\ wrappedTransport this' = wrappedTransport this)
  /\ (exists this' w',
        close this w = (Returned (this', fst (attempt InnerClose w)), w')
        /\ calls w' = calls w ++ [TClose] /\ invoked w' = invoked w
        /\ wrappedTransport this' = wrappedTransport this).
Proof.
  split; [|split].
  - unfold start, bind at 1.
    destruct (cli_ensureInitialized_spec this w) as (l0 & w0 & -> & Hv0).
    unfold transport_view in Hv0. injection Hv0 as Hc Hi Hs _ _.
    unfold_M. unfold transport_start. unfold_M. rewrite Hs.
    destruct (faults w InnerStart) as [|[e|] r]; simpl;
      eexists _, _; (split; [reflexivity|]); simpl; rewrite Hc, Hi; done.
  - intros message options. unfold send, bind at 1.
    destruct (cli_ensureInitialized_spec this w) as (l0 & w0 & -> & Hv0). simpl.
    destruct (bind_silent (DebugLogger.logMessage l0 "send" message)
                (fun l =>
                   let* r := settle (transport_send message options) in
                   ret (set_debugLogger (mk (wrappedTransport this) l0 true) l, r))
                w0 (returns_logMessage _ _ _) (quiet_logMessage _ _ _))
      as (l1 & w1 & _ & Hv1 & ->).
    rewrite Hv0 in Hv1.
    unfold transport_view in Hv1. injection Hv1 as Hc Hi _ Hs _.
    unfold_M. unfold transport_send. unfold_M. rewrite Hs.
    destruct (faults w InnerSend) as [|[e|] r]; simpl;
      eexists _, _; (split; [reflexivity|]); simpl; rewrite Hc, Hi; done.
  - unfold close.
    destruct (bind_silent (DebugLogger.logClose (debugLogger this))
                (fun l =>
                   let* r := settle transport_close in
                   ret (set_debugLogger this l, r))
                w (returns_logClose _) (quiet_logClose _))
      as (l1 & w1 & _ & Hv1 & ->).
    unfold transport_view in Hv1. injection Hv1 as Hc Hi _ _ Hs.
    unfold_M. unfold transport_close. unfold_M. rewrite Hs.
    destruct (faults w InnerClose) as [|[e|] r]; simpl;
      eexists _, _; (split; [reflexivity|]); simpl; rewrite Hc, Hi; done.
Qed.

(** X10.  The cli decorator passes events on: the callback last
    assigned to one of its three properties runs, once and with the
    arguments of the event, when the wrapped transport raises an event of
    that kind, whatever happens to the logging; no call is made on the
    wrapped transport. *)
Lemma cli_wrapper_runs_assigned_callback this ev id w :
  exists this' w',
    fire (assign this ev (Some (External id))) ev w = (Returned this', w')
    /\ invoked w' = invoked w ++ [(id, ev)]
    /\ calls w' = calls w.
Proof.
  assert (H : fire (assign this ev (Some (External id))) ev
              = invoke (assign this ev (Some (External id))) (Logged (External id)) ev)
    by (by destruct ev).
  rewrite H. simpl.
  destruct (cli_logging_spec (assign this ev (Some (External id))) ev
              (fun this0 => let* _ := invoke_external id ev in ret this0) w)
    as (l & w1 & -> & Hv).
  unfold transport_view in Hv. injection Hv as Hc Hi _ _ _.
  unfold_M. eexists _, _. split; [reflexivity|]. simpl. by rewrite Hc, Hi.
Qed.

End CliWrapperFacts.

Section WrapperFacts.

Import Js Sys DebugTransportWrapper.

Lemma ensureInitialized_spec this w :
  exists l w1,
    ensureInitialized this w
    = (Returned (mk (wrappedTransport this) (role this) l true
                    (_onclose this) (_onerror this) (_onmessage this)), w1)
    /\ transport_view w1 = transport_view w.
Proof.
  unfold ensureInitialized. destruct this as [t r l i c e m]; simpl.
  destruct i; [by exists l, w|].
  destruct (bind_silent (DebugLogger.initialize l)
              (fun l' => ret (mk t r l' true c e m)) w
              (returns_initialize l) (quiet_initialize l))
    as (l' & w1 & _ & Hv & ->).
  by exists l', w1.
Qed.

(** What [start()] of [unnamed/part_004] leaves in the slots
    of the wrapped transport: arrow functions around what the slots held
    before, whatever was assigned to the properties of the wrapper. *)
Lemma start_spec this w :
  exists this' w',
    start this w = (Returned (this', fst (attempt InnerStart w)), w')
    /\ calls w' = calls w ++ [TStart]
    /\ invoked w' = invoked w
    /\ forall ev,
         slot (wrappedTransport this') ev
         = Some (Wrapping (slot (wrappedTransport this) ev)).
Proof.
  unfold start, bind at 1.
  destruct (ensureInitialized_spec this w) as (l0 & w0 & -> & Hv0).
  unfold transport_view in Hv0. injection Hv0 as Hc Hi Hs _ _.
  unfold_M. unfold transport_start. unfold_M. rewrite Hs.
  destruct (faults w InnerStart) as [|[e|] r]; simpl;
    eexists _, _; (split; [reflexivity|]); simpl; rewrite Hc, Hi;
    (repeat split; try done); by intros [].
Qed.

(** The logging of an arrow function of [start()]. *)
Lemma logging_spec this ev (k : DebugLogger.DebugLogger -> M Wrapper) w :
  exists l w1,
    bind
      match ev with
      | OnMessage message _ =>
          DebugLogger.logMessage (debugLogger this) "recv" message
      | OnError error => DebugLogger.logError (debugLogger this) error
      | OnClose => DebugLogger.logClose (debugLogger this)
      end k w
    = k l w1
    /\ transport_view w1 = transport_view w.
Proof.
  destruct ev as [message extra|error|].
  - destruct (bind_silent (DebugLogger.logMessage (debugLogger this) "recv" message)
                k w (returns_logMessage _ _ _) (quiet_logMessage _ _ _))
      as (l & w1 & _ & Hv & ->). by exists l, w1.
  - destruct (bind_silent (DebugLogger.logError (debugLogger this) error)
                k w (returns_logError _ _) (quiet_logError _ _))
      as (l & w1 & _ & Hv & ->). by exists l, w1.
  - destruct (bind_silent (DebugLogger.logClose (debugLogger this))
                k w (returns_logClose _) (quiet_logClose _))
      as (l & w1 & _ & Hv & ->). by exists l, w1.
Qed.

(** An event on a slot that holds an arrow function of [start()] with
    nothing inside: it is logged, and no callback runs. *)
Lemma fire_on_empty_original this ev w :
  slot (wrappedTransport this) ev = Some (Wrapping None) ->
  exists this' w',
    fire this ev w = (Returned this', w')
    /\ invoked w' = invoked w /\ calls w' = calls w.
Proof.
  intros Hs. unfold fire. rewrite Hs. simpl.
  destruct (logging_spec this ev (fun l => ret (set_debugLogger this l)) w)
    as (l & w' & Hfire & Hv).
  exists (set_debugLogger this l), w'. split; [exact Hfire|].
  unfold transport_view in Hv. by injection Hv as -> -> _ _ _.
Qed.

Lemma slot_assign this ev ev' callback :
  slot (wrappedTransport (assign this ev' callback)) ev
  = slot (wrappedTransport this) ev.
Proof. by destruct ev'. Qed.

(** C5, on the class of [unnamed/part_004].  A wrapper is built around a
    transport whose slots are empty, a callback is assigned to one of the
    wrapper's properties, before or after [start()] is called, and the
    wrapped transport raises an event of that kind.  [start()] is
    delegated (the wrapped transport is started once), and the property
    reads back as the callback, but the callback does not run: nothing is
    invoked at all.  The setter only stores the callback in a private
    field, and [start()] wraps what the slots of the wrapped transport
    hold, not that field. *)
Theorem DebugTransportWrapper_drops_assigned_callback
    (sessionId : option string) (role debugBasePath : string)
    (callback : option Callback) (ev : TransportEvent) (w : World) :
  exists this0,
    new (mkTransport None None None sessionId) role debugBasePath w
    = (Returned this0, w)
    /\ property (assign this0 ev callback) ev = callback
    /\ (exists this1 this2 w1 w2,
          start (assign this0 ev callback) w
          = (Returned (this1, fst (attempt InnerStart w)), w1)
          /\ calls w1 = calls w ++ [TStart]
          /\ fire this1 ev w1 = (Returned this2, w2)
          /\ invoked w2 = invoked w)
    /\ (exists this1 this2 w1 w2,
          start this0 w = (Returned (this1, fst (attempt InnerStart w)), w1)
          /\ calls w1 = calls w ++ [TStart]
          /\ fire (assign this1 ev callback) ev w1 = (Returned this2, w2)
          /\ invoked w2 = invoked w).
Proof.
  eexists. unfold new at 1. unfold_M.
  set (this0 := mk _ _ _ _ _ _ _).
  split; [reflexivity|]. split; [by destruct ev|]. split.
  - destruct (start_spec (assign this0 ev callback) w)
      as (this1 & w1 & Hstart & Hcalls & Hinv & Hslot).
    destruct (fire_on_empty_original this1 ev w1) as (this2 & w2 & Hfire & Hi & _).
    { rewrite Hslot, slot_assign. by destruct ev. }
    exists this1, this2, w1, w2. repeat split; try done. congruence.
  - destruct (start_spec this0 w) as (this1 & w1 & Hstart & Hcalls & Hinv & Hslot).
    destruct (fire_on_empty_original (assign this1 ev callback) ev w1)
      as (this2 & w2 & Hfire & Hi & _).
    { rewrite slot_assign, Hslot. by destruct ev. }
    exists this1, this2, w1, w2. repeat split; try done. congruence.
Qed.

End WrapperFacts.

(** ** The transport factory *)

Section FactoryFacts.

Import Js TransportFactory.
Import Sys (Outcome, Returned, Thrown).

Context {P : Platform}.




(** What [new URL(path, base)] gives on a hierarchical [base]. *)
Lemma URL_with_base_spec path base :
  opaque_path base = false ->
  exists u,
    URL_with_base path base = Returned u
    /\ protocol u = protocol base /\ host u = host base
    /\ search u = "" /\ hash u = ""
    /\ pathname u
       = (if String.eqb (protocol base) "file:"
             && is_normalized_windows_drive_letter (first_segment (pathname base))
          then "/" +:+ first_segment (pathname base) +:+ path
          else path)
    /\ (username u, password u)
       = (if String.eqb (protocol base) "file:" then ("", "")
          else (username base, password base)).
Proof.
  intros Hop. unfold URL_with_base. rewrite Hop.
  destruct (String.eqb (protocol base) "file:") eqn:Hf.
  - apply String.eqb_eq in Hf. eexists. split; [reflexivity|]. simpl.
    by rewrite Hf.
  - eexists. split; [reflexivity|]. by simpl.
Qed.

(** [new URL("/sse", "file:///C:/dir/api")] is [file:///C:/sse], and
    [new URL("/mcp", "https://u:p@example.com:8443/v1?x=1#f")] is
    [https://u:p@example.com:8443/mcp]. *)
Example URL_with_base_examples :
  URL_with_base "/sse" (mkURL "file:" "" "" "" "/C:/dir/api" "" "" false)
  = Returned (mkURL "file:" "" "" "" "/C:/sse" "" "" false)
  /\ URL_with_base "/sse" (mkURL "file:" "" "" "" "/srv/dir/api" "" "" false)
     = Returned (mkURL "file:" "" "" "" "/sse" "" "" false)
  /\ URL_with_base "/mcp"
       (mkURL "https:" "u" "p" "example.com:8443" "/v1" "?x=1" "#f" false)
     = Returned (mkURL "https:" "u" "p" "example.com:8443" "/mcp" "" "" false).
Proof. repeat split. Qed.


End FactoryFacts.

Section FactoryOutcome.

Import Js TransportFactory.
Import Sys (Outcome, Returned, Thrown).

Context {P : Platform}.

Ltac by_cases_on_stages :=
  repeat match goal with
         | |- context [findActualExecutable ?c ?a] =>
             destruct (findActualExecutable c a) as [[? ?]|?]
         | |- context [new_URL ?i] => destruct (new_URL i)
         | |- context [endsWith ?p ?x] => destruct (endsWith p x)
         | |- context [URL_with_base ?p ?b] => destruct (URL_with_base p b)
         | |- context [truthy ?v] => destruct (truthy v)
         end.

(** C7, as amended.  [createTransport] ends in one of two ways.  It
    throws an error whose message is "Failed to create transport: "
    followed by the message of the underlying failure, exactly when: the
    URL of an [sse] or [http] request is missing or malformed or [/sse]
    (resp. [/mcp]) cannot be resolved against it, the resolution of the
    executable of a [stdio] request throws, or the transport type is none
    of the three.  Otherwise it returns a transport of the requested
    kind, inside the logging decorator when [MCP_TRANSPORT_DEBUG_FILE] is
    set.  A missing command is no failure of its own: it is taken as the
    empty string and handed to the resolution of the executable.  Nothing
    is tried twice: each kind of call on the platform and the SDK is made
    at most once, and nothing is constructed when an error is thrown. *)
Theorem createTransport_outcome options :
  let result := snd (createTransport options) in
  let trace := fst (createTransport options) in
  (transportType options = "stdio" ->
   result
   = match findActualExecutable (default "" (command options))
                                (default [] (args options)) with
     | Returned actual =>
         Returned (debug_wrap (StdioClientTransport (fst actual) (snd actual)
                                                    stdio_env "pipe"))
     | Thrown cause => Thrown (creation_error cause)
     end)
  /\ (transportType options = "sse" ->
      result
      = match new_URL (default "" (url options)) with
        | Thrown cause => Thrown (creation_error cause)
        | Returned base =>
            if endsWith (pathname base) "/sse"
            then Returned (debug_wrap (SSEClientTransport base))
            else match URL_with_base "/sse" base with
                 | Returned sseUrl => Returned (debug_wrap (SSEClientTransport sseUrl))
                 | Thrown cause => Thrown (creation_error cause)
                 end
        end)
  /\ (transportType options = "http" ->
      result
      = match new_URL (default "" (url options)) with
        | Thrown cause => Thrown (creation_error cause)
        | Returned base =>
            if endsWith (pathname base) "/mcp"
            then Returned (debug_wrap (StreamableHTTPClientTransport base))
            else match URL_with_base "/mcp" base with
                 | Returned mcpUrl =>
                     Returned (debug_wrap (StreamableHTTPClientTransport mcpUrl))
                 | Thrown cause => Thrown (creation_error cause)
                 end
        end)
  /\ (transportType options <> "stdio" -> transportType options <> "sse" ->
      transportType options <> "http" ->
      result
      = Thrown (creation_error
                  (mkError ("Unsupported transport type: " +:+ transportType options)
                           None)))
  /\ (forall t, result = Returned t -> kind t = transportType options)
  /\ (forall e, result = Thrown e ->
        exists cause, e = creation_error cause
                      /\ filter (fun c => is_Construct c = true) trace = [])
  /\ NoDup (call_kind <$> trace).
Proof.
  cbv zeta. unfold createTransport, try_catch, bind at 1, throw.
  repeat split.
  - intros ->. simpl.
    unfold createStdioTransport, wrapTransportWithDebugLogging, debug_wrap,
      creation_error, bind, call, ret.
    by_cases_on_stages; done.
  - intros ->. simpl.
    unfold createSSETransport, wrapTransportWithDebugLogging, debug_wrap,
      creation_error, bind, call, ret.
    by_cases_on_stages; done.
  - intros ->. simpl.
    unfold createHTTPTransport, wrapTransportWithDebugLogging, debug_wrap,
      creation_error, bind, call, ret.
    by_cases_on_stages; done.
  - intros H1 H2 H3.
    apply String.eqb_neq in H1, H2, H3. by rewrite H1, H2, H3.
  - intros t.
    destruct (String.eqb (transportType options) "stdio") eqn:E1;
      [apply String.eqb_eq in E1|
       destruct (String.eqb (transportType options) "sse") eqn:E2;
       [apply String.eqb_eq in E2|
        destruct (String.eqb (transportType options) "http") eqn:E3;
        [apply String.eqb_eq in E3|]]];
      unfold createStdioTransport, createSSETransport, createHTTPTransport,
        wrapTransportWithDebugLogging, bind, call, ret;
      by_cases_on_stages; simpl; intros [= <-]; done.
  - intros e.
    destruct (String.eqb (transportType options) "stdio");
      [|destruct (String.eqb (transportType options) "sse");
        [|destruct (String.eqb (transportType options) "http")]];
      unfold createStdioTransport, createSSETransport, createHTTPTransport,
        wrapTransportWithDebugLogging, bind, call, ret;
      by_cases_on_stages; simpl; intros [= <-];
      first
        [ eexists; split; [reflexivity|]; reflexivity
        | exists (mkError ("Unsupported transport type: " +:+ transportType options)
                          None);
          split; reflexivity ].
  - destruct (String.eqb (transportType options) "stdio");
      [|destruct (String.eqb (transportType options) "sse");
        [|destruct (String.eqb (transportType options) "http")]];
      unfold createStdioTransport, createSSETransport, createHTTPTransport,
        wrapTransportWithDebugLogging, bind, call, ret;
      by_cases_on_stages; simpl;
      by apply (bool_decide_unpack _).
Qed.

End FactoryOutcome.

(** The counterexample to C7 as stated: a [stdio] request without a
    command.  Nothing is raised: the command is taken as the empty
    string, goes through the resolution of the executable, and a
    [StdioClientTransport] is constructed with it. *)
Lemma missing_command_is_no_error :
  let P := TransportFactory.example_platform None in
  let options := TransportFactory.mkOptions "stdio" None None None in
  TransportFactory.command options = None
  /\ snd (@TransportFactory.createTransport P options)
     = Sys.Returned
         (TransportFactory.StdioClientTransport
            "" [] (@TransportFactory.stdio_env P) "pipe")
  /\ fst (@TransportFactory.createTransport P options)
     = [TransportFactory.FindActualExecutable "" [];
        TransportFactory.Construct
          (TransportFactory.StdioClientTransport
             "" [] (@TransportFactory.stdio_env P) "pipe")].
Proof. cbv zeta. repeat split. Qed.

(** Witness of C7: an [sse] request without a URL. *)
Lemma createTransport_outcome_witness :
  let P := TransportFactory.example_platform None in
  let options := TransportFactory.mkOptions "sse" None None None in
  TransportFactory.transportType options = "sse"
  /\ snd (@TransportFactory.createTransport P options)
     = Sys.Thrown (Js.mkError "Failed to create transport: Invalid URL" None).
Proof.
  cbv zeta. split; [reflexivity|].
  destruct (@createTransport_outcome (TransportFactory.example_platform None)
              (TransportFactory.mkOptions "sse" None None None))
    as (_ & Hsse & _).
  rewrite Hsse by reflexivity. reflexivity.
Defined.



(** The two decorators on one input: the callback [External 1] is
    assigned to [onmessage], [start()] is called, and the wrapped
    transport delivers a message.  The decorator of the cli runs the
    callback; the one of [unnamed/part_004] does not. *)
Lemma decorators_differ :
  let w := Sys.example_world Sys.no_faults in
  let ev := Sys.OnMessage (Js.JObject [("jsonrpc", Js.JString "2.0");
                                       ("method", Js.JString "ping")]) None in
  (let t := CliDebugTransportWrapper.mkTransport None None None None in
   let run :=
     let* this := CliDebugTransportWrapper.new t "/tmp/mcp" in
     let this :=
       CliDebugTransportWrapper.set_onmessage this
         (Some (CliDebugTransportWrapper.External 1)) in
     let* started := CliDebugTransportWrapper.start this in
     CliDebugTransportWrapper.fire (fst started) ev in
   Sys.invoked (snd (run w)) = [(1, ev)])
  /\
  (let t := DebugTransportWrapper.mkTransport None None None None in
   let run :=
     let* this := DebugTransportWrapper.new t "server" "/tmp/mcp" in
     let this :=
       DebugTransportWrapper.set_onmessage this
         (Some (DebugTransportWrapper.External 1)) in
     let* started := DebugTransportWrapper.start this in
     DebugTransportWrapper.fire (fst started) ev in
   Sys.invoked (snd (run w)) = []).
Proof. cbv zeta. split; reflexivity. Qed.

(** ** Further properties of the forwarding engine *)

Section ProxyHistories.

Import Js McpProxy McpProxyViews.

Context {sdk : Sdk}.

Variable debugLogger : bool.

Lemma session_reports_debugLogger_call a :
  is_diagnostic a = true -> is_session_report a = false ->
  List.filter is_session_report (debugLogger_call debugLogger a) = [].
Proof.
  unfold debugLogger_call. intros _ H. destruct debugLogger; simpl; [|done].
  by rewrite H.
Qed.

(** Only [transportToServer.onmessage] can print the session line. *)
Lemma step_session_reports_other s ev :
  match ev with ServerOnMessage _ _ => False | _ => True end ->
  List.filter is_session_report (snd (step debugLogger s ev)) = []
  /\ reportedServerSession (fst (step debugLogger s ev)) = reportedServerSession s.
Proof.
  intros H. destruct ev; try done; simpl;
    unfold transportToClient_onclose, transportToServer_onclose, onServerError,
      debugLogger_call;
    repeat case_match; simpl; done.
Qed.

(** A history, one event at a time. *)
Lemma run_cons s ev evs :
  run debugLogger s (ev :: evs)
  = (fst (run debugLogger (fst (step debugLogger s ev)) evs),
     snd (step debugLogger s ev)
     ++ snd (run debugLogger (fst (step debugLogger s ev)) evs)).
Proof.
  simpl. destruct (step debugLogger s ev) as [s1 a1]. simpl.
  by destruct (run debugLogger s1 evs) as [s2 a2].
Qed.

(** Once [reportedServerSession] is set, the line is not printed again. *)
Lemma run_session_reported evs : forall s,
  reportedServerSession s = true ->
  List.filter is_session_report (snd (run debugLogger s evs)) = [].
Proof.
  induction evs as [|ev evs IH]; intros s Hr; [done|].
  rewrite run_cons. cbn [snd]. rewrite List.filter_app.
  assert (Hstep :
    List.filter is_session_report (snd (step debugLogger s ev)) = []
    /\ reportedServerSession (fst (step debugLogger s ev)) = true).
  { destruct ev as [m|m sid| | | | | | | |];
      try (match goal with
           | |- context [step debugLogger s ?e] =>
               destruct (step_session_reports_other s e I) as [-> ->]
           end; by split).
    simpl. rewrite Hr. unfold debugLogger_call. by destruct debugLogger. }
  destruct Hstep as [-> H2]. by apply IH.
Qed.

(** X1.  The session id of the server transport is reported on the
    console at most once in the life of a forwarding pair, and only on
    behalf of the first message the server transport delivers: the line
    carries the [sessionId] the transport has at that moment, when it is
    a non-empty string.  If the transport has no session id yet when its
    first message arrives, none is ever reported, whatever later messages
    bring. *)
Theorem session_reported_once evs :
  List.filter is_session_report (snd (run debugLogger initial evs))
  = match first_server_session evs with
    | Some (Some id) =>
        if String.eqb id "" then []
        else [ConsoleError ("Proxy  <-> Server sessionId: " +:+ id)]
    | _ => []
    end.
Proof.
  assert (H : forall s, reportedServerSession s = false ->
    List.filter is_session_report (snd (run debugLogger s evs))
    = match first_server_session evs with
      | Some (Some id) =>
          if String.eqb id "" then []
          else [ConsoleError ("Proxy  <-> Server sessionId: " +:+ id)]
      | _ => []
      end); [|by apply H].
  induction evs as [|ev evs IH]; intros s Hr; [done|].
  rewrite run_cons. cbn [snd]. rewrite List.filter_app.
  destruct ev as [m|m sid| | | | | | | |];
    try (match goal with
         | |- context [step debugLogger s ?e] =>
             destruct (step_session_reports_other s e I) as [-> H2]
         end;
         rewrite IH by (by rewrite H2); done).
  rewrite run_session_reported by done. rewrite app_nil_r.
  simpl. rewrite Hr. rewrite !List.filter_app.
  rewrite session_reports_debugLogger_call by done. simpl.
  destruct sid as [id|]; [|done].
  destruct (String.eqb id ""); [done|]. by destruct id.
Qed.

End ProxyHistories.

Section ProxyClosing.

Import Js McpProxy.

Context {sdk : Sdk}.

Variable debugLogger : bool.

Lemma run_client_closed_first_flags evs : forall s,
  transportToClientClosed s = true -> transportToServerClosed s = false ->
  transportToClientClosed (fst (run debugLogger s evs)) = true
  /\ transportToServerClosed (fst (run debugLogger s evs)) = false.
Proof.
  induction evs as [|ev evs IH]; intros s Hc Hs; [done|].
  rewrite run_cons. cbn [fst].
  destruct (client_closed_first_stable debugLogger s ev Hc Hs) as (Hc' & Hs' & _).
  by apply IH.
Qed.

Lemma run_server_closed_first_flags evs : forall s,
  transportToClientClosed s = false -> transportToServerClosed s = true ->
  transportToClientClosed (fst (run debugLogger s evs)) = false
  /\ transportToServerClosed (fst (run debugLogger s evs)) = true.
Proof.
  induction evs as [|ev evs IH]; intros s Hc Hs; [done|].
  rewrite run_cons. cbn [fst].
  destruct (server_closed_first_stable debugLogger s ev Hc Hs) as (Hc' & Hs' & _).
  by apply IH.
Qed.

(** From a state in which no side is marked closed. *)
Lemma run_one_side_closed evs : forall s,
  transportToClientClosed s = false -> transportToServerClosed s = false ->
  match transportToClientClosed (fst (run debugLogger s evs)),
        transportToServerClosed (fst (run debugLogger s evs)) with
  | false, false => closed (snd (run debugLogger s evs)) = []
  | true, false =>
      exists n, closed (snd (run debugLogger s evs)) = repeat transportToServer (S n)
  | false, true =>
      exists n, closed (snd (run debugLogger s evs)) = repeat transportToClient (S n)
  | true, true => False
  end.
Proof.
  induction evs as [|ev evs IH]; intros s Hc Hs.
  - simpl. by rewrite Hc, Hs.
  - rewrite run_cons. cbn [fst snd]. rewrite closed_app.
    destruct (is_onclose ev) eqn:Hev.
    + destruct ev; try discriminate; simpl;
        unfold transportToClient_onclose, transportToServer_onclose;
        rewrite ?Hc, ?Hs; cbn [fst snd];
        rewrite closed_app, closed_debugLogger_call by done; simpl.
      * set (s1 := mkState true _ _).
        destruct (run_client_closed_first_flags evs s1 eq_refl eq_refl) as [-> ->].
        eexists.
        by rewrite (run_client_closed_first debugLogger evs s1 eq_refl eq_refl).
      * set (s1 := mkState _ true _).
        destruct (run_server_closed_first_flags evs s1 eq_refl eq_refl) as [-> ->].
        eexists.
        by rewrite (run_server_closed_first debugLogger evs s1 eq_refl eq_refl).
    + destruct (step_not_onclose debugLogger s ev Hev) as (Hc' & Hs' & ->).
      simpl. apply IH; congruence.
Qed.

(** X2.  Whatever happens to a forwarding pair, the engine calls
    [close()] on one of the two transports only: on none while no
    [onclose] has come, on the server transport alone once the client's
    [onclose] came first, on the client transport alone once the server's
    came first.  The two closed flags are never both set. *)
Theorem closes_one_transport_only evs :
  match transportToClientClosed (fst (run debugLogger initial evs)),
        transportToServerClosed (fst (run debugLogger initial evs)) with
  | false, false => closed (snd (run debugLogger initial evs)) = []
  | true, false =>
      exists n,
        closed (snd (run debugLogger initial evs)) = repeat transportToServer (S n)
  | false, true =>
      exists n,
        closed (snd (run debugLogger initial evs)) = repeat transportToClient (S n)
  | true, true => False
  end.
Proof. by apply run_one_side_closed. Qed.

(** X3.  Whether a failed forward of a request is still answered
    depends on which side closed first.  After the client's [onclose]
    came first, no error response is sent any more.  After the server's
    [onclose] came first the client side is never marked closed (its own
    [onclose] returns before the flag is set), so the rejected forward of
    a request is still answered with a [send] on the client transport,
    although the engine has called [close()] on that transport. *)
Theorem error_reply_after_close reported evs m error :
  isJSONRPCRequest m = true ->
  let s0 := mkState false false reported in
  sent transportToClient
    (snd (step debugLogger (fst (run debugLogger s0 (ClientOnClose :: evs)))
            (ServerSendRejected m error))) = []
  /\ sent transportToClient
       (snd (step debugLogger (fst (run debugLogger s0 (ServerOnClose :: evs)))
               (ServerSendRejected m error)))
     = [errorResponse (get "id" m) error]
  /\ In transportToClient (closed (snd (run debugLogger s0 (ServerOnClose :: evs)))).
Proof.
  intros Hreq s0. rewrite !run_cons. cbn [fst snd].
  unfold s0. simpl. unfold transportToClient_onclose, transportToServer_onclose.
  simpl.
  destruct (run_client_closed_first_flags evs (mkState true false reported)
              eq_refl eq_refl) as [Hc _].
  destruct (run_server_closed_first_flags evs (mkState false true reported)
              eq_refl eq_refl) as [Hs _].
  rewrite !sent_app, !sent_debugLogger_call by done.
  rewrite Hreq, Hc, Hs. simpl. repeat split.
  rewrite !closed_app, closed_debugLogger_call by done. simpl. by left.
Qed.

End ProxyClosing.

(** Witness of X3: the server closes first, an error of the client
    follows, then the forward of a request is rejected. *)
Lemma error_reply_after_close_witness :
  let m := Js.JObject [("jsonrpc", Js.JString "2.0"); ("id", Js.JString "a1");
                       ("method", Js.JString "tools/list")] in
  let error := Js.mkError "write EPIPE" None in
  let evs := [McpProxy.ClientOnClose; McpProxy.ClientOnError error] in
  McpProxy.isJSONRPCRequest m = true
  /\ McpProxy.sent McpProxy.transportToClient
       (snd (McpProxy.step true
               (fst (McpProxy.run true (McpProxy.mkState false false false)
                       (McpProxy.ServerOnClose :: evs)))
               (McpProxy.ServerSendRejected m error)))
     = [McpProxy.errorResponse (Js.get "id" m) error].
Proof.
  cbv zeta. split; [reflexivity|].
  apply (error_reply_after_close true false
           [McpProxy.ClientOnClose; McpProxy.ClientOnError (Js.mkError "write EPIPE" None)]
           (Js.JObject [("jsonrpc", Js.JString "2.0"); ("id", Js.JString "a1");
                        ("method", Js.JString "tools/list")])
           (Js.mkError "write EPIPE" None)).
  reflexivity.
Defined.

(** ** Further properties of the debug logger *)

Section LoggerHistories.

Import Js Sys DebugLogger DebugLoggerViews.

(** One call on an open logger when neither writing nor closing fails. *)
Lemma call_writes_record this c w h :
  logFileHandle this = Some h ->
  Forall (fun o => o = None) (faults w Write) ->
  Forall (fun o => o = None) (faults w CloseFile) ->
  exists this' w' e,
    call this c w = (Returned this', w')
    /\ log_of w' h = log_of w h ++ [e]
    /\ written_by this (process_pid w) c e
    /\ process_pid w' = process_pid w
    /\ Forall (fun o => o = None) (faults w' Write)
    /\ Forall (fun o => o = None) (faults w' CloseFile)
    /\ this' = match c with
               | CallLogClose => set_logFileHandle this None
               | _ => this
               end.
Proof.
  intros Hh Hw Hc.
  assert (Hw' : Forall (fun o => o = None) (tail (faults w Write)))
    by (by destruct Hw; simpl).
  assert (Hc' : Forall (fun o => o = None) (tail (faults w CloseFile)))
    by (by destruct Hc; simpl).
  destruct c as [direction message|error|]; simpl;
    unfold logMessage, logError, logClose, fh_write, fh_sync, fh_close;
    rewrite Hh; unfold_M.
  - destruct (faults w Write) as [|[e|] l] eqn:EW; simpl; [| by inversion Hw |];
      destruct (faults w Sync) as [|[e'|] l']; simpl;
      eexists _, _, _; (split; [reflexivity|]);
      unfold log_of; simpl; rewrite lookup_insert_eq; simpl;
      rewrite ?EW; by repeat split.
  - destruct (faults w Write) as [|[e|] l] eqn:EW; simpl; [| by inversion Hw |];
      eexists _, _, _; (split; [reflexivity|]);
      unfold log_of; simpl; rewrite lookup_insert_eq; simpl;
      rewrite ?EW; by repeat split.
  - destruct (faults w Write) as [|[e|] l] eqn:EW; simpl; [| by inversion Hw |];
      (destruct (faults w CloseFile) as [|[e'|] l'] eqn:EC; simpl;
       [| by inversion Hc |]);
      eexists _, _, _; (split; [reflexivity|]);
      unfold log_of; simpl; rewrite lookup_insert_eq; simpl;
      rewrite ?EW, ?EC; by repeat split.
Qed.

(** X4.  On a logger with an open handle, when neither writing nor
    closing the file fails, a sequence of calls appends to the file of
    the handle exactly one record per call, in the order of the calls,
    each with the role of the logger, the pid of the process and the
    direction, message or error text of its call, up to and including the
    first [logClose()]; the calls after that one append nothing. *)
Theorem log_keeps_order cs : forall this w h,
  logFileHandle this = Some h ->
  Forall (fun o => o = None) (faults w Write) ->
  Forall (fun o => o = None) (faults w CloseFile) ->
  exists this' w' appended,
    run this cs w = (Returned this', w')
    /\ log_of w' h = log_of w h ++ appended
    /\ Forall2 (written_by this (process_pid w)) (until_close cs) appended.
Proof.
  induction cs as [|c cs IH]; intros this w h Hh Hw Hc.
  - exists this, w, []. simpl. rewrite app_nil_r. by repeat split.
  - destruct (call_writes_record this c w h Hh Hw Hc)
      as (this1 & w1 & e & Hcall & Hlog & He & Hpid & Hw1 & Hc1 & Hthis).
    simpl. unfold bind. rewrite Hcall.
    destruct c as [direction message|error|].
    + subst this1.
      destruct (IH this w1 h Hh Hw1 Hc1) as (this' & w' & app & Hrun & Hlog' & Happ).
      exists this', w', (e :: app). split; [exact Hrun|].
      split; [by rewrite Hlog', Hlog, <- app_assoc|].
      constructor; [done|]. by rewrite <- Hpid.
    + subst this1.
      destruct (IH this w1 h Hh Hw1 Hc1) as (this' & w' & app & Hrun & Hlog' & Happ).
      exists this', w', (e :: app). split; [exact Hrun|].
      split; [by rewrite Hlog', Hlog, <- app_assoc|].
      constructor; [done|]. by rewrite <- Hpid.
    + subst this1. exists (set_logFileHandle this None), w1, [e].
      split; [by apply run_without_handle|]. split; [done|].
      simpl. constructor; [done|constructor].
Qed.

End LoggerHistories.

Section LoggerFiles.

Import Js Sys DebugLogger DebugLoggerViews.

Lemma string_length_app (a b : string) :
  String.length (a +:+ b) = String.length a + String.length b.
Proof. induction a as [|c a IH]; simpl; [done|]. by rewrite IH. Qed.

(** Cancelling a common ending. *)
Lemma string_app_inj_r (s a b : string) : a +:+ s = b +:+ s -> a = b.
Proof.
  revert b. induction a as [|c a IH]; intros [|d b] H; simpl in H.
  - done.
  - apply (f_equal String.length) in H.
    rewrite !string_length_app in H. simpl in H. lia.
  - apply (f_equal String.length) in H.
    rewrite !string_length_app in H. simpl in H. lia.
  - injection H as -> H. f_equal. by apply IH.
Qed.

(** X6.  The log file of a logger is named after its base path, its
    role (["proxy"] when none is given) and the pid of the process.  For
    one base path, two processes with the same role never share a file,
    and neither do two roles in one process. *)
Theorem log_file_per_role_and_process base r1 r2 w1 w2 this1 this2 w1' w2' :
  new base r1 w1 = (Returned this1, w1') ->
  new base r2 w2 = (Returned this2, w2') ->
  logFilePath this1
  = base +:+ "." +:+ default "proxy" r1 +:+ "." +:+ pretty (process_pid w1)
  /\ (logFilePath this1 = logFilePath this2 ->
      (default "proxy" r1 = default "proxy" r2 -> process_pid w1 = process_pid w2)
      /\ (process_pid w1 = process_pid w2 -> default "proxy" r1 = default "proxy" r2)).
Proof.
  unfold new. unfold_M. intros [= <- _] [= <- _]. simpl.
  split; [done|]. intros H. apply String.app_inj in H.
  apply (String.app_inj ".") in H.
  split.
  - intros Hr. rewrite Hr in H. apply String.app_inj in H.
    apply (String.app_inj ".") in H. by apply pretty_nat_inj in H.
  - intros Hp. rewrite Hp in H. by apply string_app_inj_r in H.
Qed.

(** X7.  Opening and then logging: when creating the directory, opening
    the file and writing do not fail, [initialize()] gives the logger a
    handle on its own [logFilePath] and keeps what the file already
    holds (it is opened for appending), and a [logMessage] that follows
    adds its record at the end of that file and touches no other file. *)
Theorem initialize_then_log this w direction message :
  fails Mkdir w = false -> fails Open w = false -> fails Write w = false ->
  let this1 := set_logFileHandle this (Some (logFilePath this)) in
  exists w1 w2 e,
    initialize this w = (Returned this1, w1)
    /\ log_of w1 (logFilePath this) = log_of w (logFilePath this)
    /\ logMessage this1 direction message w1 = (Returned this1, w2)
    /\ log_of w2 (logFilePath this) = log_of w (logFilePath this) ++ [e]
    /\ written_by this1 (process_pid w) (CallLogMessage direction message) e
    /\ forall path, path <> logFilePath this -> log_of w2 path = log_of w path.
Proof.
  unfold fails. intros Hm Ho Hw. cbv zeta.
  unfold initialize, logMessage, fs_mkdir, fs_open, fh_write, fh_sync.
  unfold_M.
  destruct (String.eqb (dirname (logFilePath this)) "."); simpl;
    destruct (faults w Mkdir) as [|[em|] lm] eqn:EM; try discriminate; simpl;
    destruct (faults w Open) as [|[eo|] lo] eqn:EO; try discriminate; simpl;
    destruct (faults w Write) as [|[ew|] lw] eqn:EW; try discriminate; simpl;
    destruct (faults w Sync) as [|[es|] ls] eqn:ES; simpl;
    eexists _, _, _; (split; [reflexivity|]);
    unfold log_of; simpl; rewrite ?lookup_insert_eq; simpl;
    (split; [by destruct (files w !! logFilePath this)|]);
    rewrite ?EW; simpl; rewrite ?ES; simpl;
    (split; [reflexivity|]); simpl; rewrite ?lookup_insert_eq; simpl;
    (split; [reflexivity|]); (split; [by repeat split|]);
    intros path Hne; by rewrite !lookup_insert_ne.
Qed.

(** X8.  What a logging failure leaves behind.  [logError] and
    [logClose] never print to the console, whatever fails; [logMessage]
    prints one line when its write or its sync fails and nothing
    otherwise.  After a failed write or sync the logger is as it was,
    handle included, so later calls try again. *)
Theorem logging_failures_on_console this w direction message error :
  console (snd (logError this error w)) = console w
  /\ console (snd (logClose this w)) = console w
  /\ (exists lines,
        console (snd (logMessage this direction message w)) = console w ++ lines
        /\ length lines
           = if bool_decide (is_Some (logFileHandle this))
                && (fails Write w || fails Sync w)
             then 1 else 0)
  /\ fst (logMessage this direction message w) = Returned this
  /\ fst (logError this error w) = Returned this.
Proof.
  unfold logError, logClose, logMessage, fh_write, fh_sync, fh_close, fails.
  destruct (logFileHandle this) as [h|]; simpl.
  - unfold_M.
    destruct (faults w Write) as [|[ew|] lw]; simpl;
      destruct (faults w Sync) as [|[es|] ls]; simpl;
      destruct (faults w CloseFile) as [|[ec|] lc]; simpl;
      repeat split;
      first [ by exists []; rewrite app_nil_r | by eexists [_] ].
  - repeat split. exists []. by rewrite app_nil_r.
Qed.

End LoggerFiles.

(** ** Further properties of the logging decorators *)

Section CliWrapperLife.

Import Js Sys CliDebugTransportWrapper CliWrapperUse.

Lemma gave_up_assign this ev callback :
  gave_up this -> gave_up (assign this ev callback).
Proof. by destruct ev. Qed.

Lemma gave_up_invoke f : forall this ev w,
  gave_up this ->
  exists w',
    invoke this f ev w = (Returned this, w') /\ fs_view w' = fs_view w.
Proof.
  induction f as [id|callback IH]; intros this ev w [Hi Hh]; simpl.
  - unfold_M. by eexists.
  - destruct this as [t l i]. simpl in *. subst i.
    destruct ev;
      unfold ensureInitialized, DebugLogger.logMessage, DebugLogger.logError,
        DebugLogger.logClose; unfold_M; rewrite ?Hh; simpl;
      apply (IH (mk t l true)); by split.
Qed.

Lemma gave_up_perform this op w :
  gave_up this ->
  exists this' w',
    perform this op w = (Returned this', w')
    /\ gave_up this' /\ fs_view w' = fs_view w.
Proof.
  intros Hg. destruct op as [|message options| |ev callback|ev]; simpl.
  - destruct Hg as [Hi Hh]. destruct this as [t l i]. simpl in *. subst i.
    unfold start, ensureInitialized, transport_start. unfold_M.
    destruct (faults w InnerStart) as [|[e|] r]; simpl;
      eexists _, _; (split; [reflexivity|]); by repeat split.
  - destruct Hg as [Hi Hh]. destruct this as [t l i]. simpl in *. subst i.
    unfold send, ensureInitialized, DebugLogger.logMessage, transport_send.
    unfold_M. rewrite Hh. simpl.
    destruct (faults w InnerSend) as [|[e|] r]; simpl;
      eexists _, _; (split; [reflexivity|]); by repeat split.
  - destruct Hg as [Hi Hh]. destruct this as [t l i]. simpl in *. subst i.
    unfold close, DebugLogger.logClose, transport_close.
    unfold_M. rewrite Hh. simpl.
    destruct (faults w InnerClose) as [|[e|] r]; simpl;
      eexists _, _; (split; [reflexivity|]); by repeat split.
  - unfold_M. eexists _, _. split; [reflexivity|].
    split; [by apply gave_up_assign|done].
  - unfold fire. destruct (slot (wrappedTransport this) ev) as [f|].
    + destruct (gave_up_invoke f this ev w Hg) as (w' & -> & Hv).
      by exists this, w'.
    + by exists this, w.
Qed.

Lemma gave_up_perform_all ops : forall this w,
  gave_up this ->
  exists this' w',
    perform_all this ops w = (Returned this', w')
    /\ gave_up this' /\ fs_view w' = fs_view w.
Proof.
  induction ops as [|op ops IH]; intros this w Hg; simpl.
  - by exists this, w.
  - destruct (gave_up_perform this op w Hg) as (this1 & w1 & Hop & Hg1 & Hv1).
    destruct (IH this1 w1 Hg1) as (this' & w' & Hrun & Hg' & Hv').
    exists this', w'. unfold bind. rewrite Hop. split; [exact Hrun|].
    split; [done|congruence].
Qed.

(** X11.  Initialization of the logger is tried once and not again.
    When the first [send] (or [start]) on a fresh wrapper finds that the
    log file cannot be opened, the wrapper is marked initialized all the
    same, without a file handle.  From then on, whatever is done with the
    wrapper and whatever the file system would allow by then, no file is
    created or changed, no directory or file is opened, nothing is
    written and nothing is printed: the wrapper only passes calls and
    events through. *)
Theorem cli_initialization_not_retried t path role message options w :
  let this0 := mk t (DebugLogger.mk None path role) false in
  DebugLogger.open_fails (debugLogger this0) w = true ->
  (exists this1 r w1,
     send this0 message options w = (Returned (this1, r), w1)
     /\ files w1 = files w /\ gave_up this1)
  /\ (exists this1 r w1,
        start this0 w = (Returned (this1, r), w1)
        /\ files w1 = files w /\ gave_up this1)
  /\ forall this1, gave_up this1 ->
       forall ops w2,
         exists this' w2',
           perform_all this1 ops w2 = (Returned this', w2')
           /\ gave_up this' /\ fs_view w2' = fs_view w2.
Proof.
  intros this0 Hfail.
  destruct (initialize_open_fails (DebugLogger.mk None path role) w Hfail)
    as (w0 & Hinit).
  assert (Hfiles : files w0 = files w /\ faults w0 InnerSend = faults w InnerSend
                   /\ faults w0 InnerStart = faults w InnerStart).
  { revert Hinit. unfold DebugLogger.open_fails, fails in Hfail.
    unfold DebugLogger.initialize, fs_mkdir, fs_open. unfold_M.
    destruct (String.eqb _ "."); simpl in *;
      destruct (faults w Mkdir) as [|[em|] lm]; simpl in *;
      destruct (faults w Open) as [|[eo|] lo]; simpl in *;
      try discriminate; by intros [= <-]. }
  destruct Hfiles as (Hf & Hsend & Hstart).
  split; [|split].
  - unfold send, ensureInitialized. cbn [initialized this0 debugLogger].
    unfold bind at 1 2. rewrite Hinit. unfold_M.
    unfold transport_send. unfold_M.
    destruct (faults w0 InnerSend) as [|[e|] r]; simpl;
      eexists _, _, _; (split; [reflexivity|]); by repeat split.
  - unfold start, ensureInitialized. cbn [initialized this0 debugLogger].
    unfold bind at 1 2. rewrite Hinit. unfold_M.
    unfold transport_start. unfold_M.
    destruct (faults w0 InnerStart) as [|[e|] r]; simpl;
      eexists _, _, _; (split; [reflexivity|]); by repeat split.
  - intros this1 Hg ops w2. by apply gave_up_perform_all.
Qed.

End CliWrapperLife.

Section CliWrapperLogging.

Import Js Sys CliDebugTransportWrapper DebugLoggerViews.

(** X12.  The first [send] on a fresh wrapper of the cli, when creating
    the directory, opening the file and writing do not fail: the log file
    [<debugBasePath>.cli.<pid>] gets one more record, of role [cli] and
    direction [send], holding the message, and the message then goes to
    the wrapped transport, once. *)
Theorem cli_send_is_logged t debugBasePath message options w :
  fails Mkdir w = false -> fails Open w = false -> fails Write w = false ->
  let path := debugBasePath +:+ ".cli." +:+ pretty (process_pid w) in
  exists this0 this1 r w1 e,
    new t debugBasePath w = (Returned this0, w)
    /\ DebugLogger.logFilePath (debugLogger this0) = path
    /\ send this0 message options w = (Returned (this1, r), w1)
    /\ log_of w1 path = log_of w path ++ [e]
    /\ DebugLogEntry.role e = "cli"
    /\ DebugLogEntry.pid e = process_pid w
    /\ DebugLogEntry.direction e = "send"
    /\ DebugLogEntry.message e = Some message
    /\ calls w1 = calls w ++ [TSend message options]
    /\ initialized this1 = true
    /\ DebugLogger.logFileHandle (debugLogger this1) = Some path.
Proof.
  unfold fails. intros Hm Ho Hw. cbv zeta.
  set (path := debugBasePath +:+ ".cli." +:+ pretty (process_pid w)).
  exists (mk t (DebugLogger.mk None path "cli") false).
  unfold new, DebugLogger.new, send, ensureInitialized, DebugLogger.initialize,
    DebugLogger.logMessage, fs_mkdir, fs_open, fh_write, fh_sync, transport_send.
  unfold_M.
  destruct (String.eqb (dirname path) "."); simpl;
    destruct (faults w Mkdir) as [|[em|] lm] eqn:EM; try discriminate; simpl;
    destruct (faults w Open) as [|[eo|] lo] eqn:EO; try discriminate; simpl;
    destruct (faults w Write) as [|[ew|] lw] eqn:EW; try discriminate; simpl;
    rewrite ?EW; simpl;
    destruct (faults w Sync) as [|[es|] ls] eqn:ES; simpl; rewrite ?ES; simpl;
    destruct (faults w InnerSend) as [|[ei|] li] eqn:EI; simpl;
    rewrite ?EI; simpl;
    eexists _, _, _, _; (split; [reflexivity|]); simpl;
    (split; [reflexivity|]); (split; [reflexivity|]);
    unfold log_of; simpl; rewrite ?lookup_insert_eq; simpl;
    (split; [reflexivity|]); by repeat split.
Qed.

End CliWrapperLogging.

Section WrapperLife.

Import Js Sys DebugTransportWrapper.

(** X13.  What [start()] of the class of [unnamed/part_004] does keep
    alive: a callback that sits in a slot of the wrapped transport itself
    when [start()] is called.  After [start()] an event of that kind is
    logged and then runs that callback, once and with the arguments of
    the event. *)
Theorem installed_callback_survives_start this id ev w :
  slot (wrappedTransport this) ev = Some (External id) ->
  exists this1 w1 this2 w2,
    start this w = (Returned (this1, fst (attempt InnerStart w)), w1)
    /\ fire this1 ev w1 = (Returned this2, w2)
    /\ invoked w2 = invoked w ++ [(id, ev)]
    /\ calls w2 = calls w ++ [TStart].
Proof.
  intros Hs.
  destruct (start_spec this w) as (this1 & w1 & Hstart & Hcalls & Hinv & Hslot).
  exists this1, w1. unfold fire. rewrite Hslot, Hs. simpl.
  destruct (logging_spec this1 ev
              (fun l =>
                 let* _ := invoke_external id ev in
                 ret (set_debugLogger this1 l)) w1)
    as (l & w2 & -> & Hv).
  unfold transport_view in Hv. injection Hv as Hc Hi _ _ _.
  unfold_M. eexists _, _. split; [exact Hstart|]. split; [reflexivity|].
  simpl. by rewrite Hc, Hi, Hcalls, Hinv.
Qed.

(** X14.  The class of [unnamed/part_004] delegates [start], [send] and
    [close]: the wrapped transport receives the same call, once, with
    the same arguments, the call settles as the wrapped transport's call
    does, whatever happens to the logging, and no callback runs. *)
Theorem wrapper_delegates this w :
  (exists this' w',
     start this w = (Returned (this', fst (attempt InnerStart w)), w')
     /\ calls w' = calls w ++ [TStart] /\ invoked w' = invoked w)
  /\ (forall message options, exists this' w',
        send this message options w
        = (Returned (this', fst (attempt InnerSend w)), w')
        /\ calls w' = calls w ++ [TSend message options]
        /\ invoked w' = invoked w
        /\ wrappedTransport this' = wrappedTransport this)
  /\ (exists this' w',
        close this w = (Returned (this', fst (attempt InnerClose w)), w')
        /\ calls w' = calls w ++ [TClose] /\ invoked w' = invoked w
        /\ wrappedTransport this' = wrappedTransport this).
Proof.
  split; [|split].
  - destruct (start_spec this w) as (this1 & w1 & Hstart & Hcalls & Hinv & _).
    by exists this1, w1.
  - intros message options. unfold send, bind at 1.
    destruct (ensureInitialized_spec this w) as (l0 & w0 & -> & Hv0). simpl.
    set (this0 := mk _ _ l0 _ _ _ _).
    destruct (bind_silent (DebugLogger.logMessage l0 "send" message)
                (fun l =>
                   let* r := settle (transport_send message options) in
                   ret (set_debugLogger this0 l, r))
                w0 (returns_logMessage _ _ _) (quiet_logMessage _ _ _))
      as (l1 & w1 & _ & Hv1 & ->).
    rewrite Hv0 in Hv1.
    unfold transport_view in Hv1. injection Hv1 as Hc Hi _ Hs _.
    unfold_M. unfold transport_send. unfold_M. rewrite Hs.
    destruct (faults w InnerSend) as [|[e|] r]; simpl;
      eexists _, _; (split; [reflexivity|]); simpl; rewrite Hc, Hi; done.
  - unfold close.
    destruct (bind_silent (DebugLogger.logClose (debugLogger this))
                (fun l =>
                   let* r := settle transport_close in
                   ret (set_debugLogger this l, r))
                w (returns_logClose _) (quiet_logClose _))
      as (l1 & w1 & _ & Hv1 & ->).
    unfold transport_view in Hv1. injection Hv1 as Hc Hi _ _ Hs.
    unfold_M. unfold transport_close. unfold_M. rewrite Hs.
    destruct (faults w InnerClose) as [|[e|] r]; simpl;
      eexists _, _; (split; [reflexivity|]); simpl; rewrite Hc, Hi; done.
Qed.

End WrapperLife.

(** ** Further properties of the transport factory *)

Section FactoryUrls.

Import Js TransportFactory.
Import Sys (Outcome, Returned, Thrown).

Context {P : Platform}.

(** X15.  What becomes of the rest of the URL.  When the path of the
    given URL ends with [/sse] (resp. [/mcp]) the transport gets the URL
    as it was parsed, with its query, fragment and credentials.
    Otherwise the transport gets [new URL("/sse", baseUrl)]: the query
    and the fragment of the given URL are dropped; its credentials stay,
    but for a [file:] URL, which gets none (and has none to give). *)
Theorem url_query_and_fragment options base :
  new_URL (default "" (url options)) = Returned base ->
  opaque_path base = false ->
  exists sseUrl mcpUrl,
    snd (createSSETransport options) = Returned (SSEClientTransport sseUrl)
    /\ snd (createHTTPTransport options)
       = Returned (StreamableHTTPClientTransport mcpUrl)
    /\ (search sseUrl, hash sseUrl)
       = (if endsWith (pathname base) "/sse" then (search base, hash base)
          else ("", ""))
    /\ (search mcpUrl, hash mcpUrl)
       = (if endsWith (pathname base) "/mcp" then (search base, hash base)
          else ("", ""))
    /\ (username sseUrl, password sseUrl)
       = (if endsWith (pathname base) "/sse"
             || negb (String.eqb (protocol base) "file:")
          then (username base, password base) else ("", ""))
    /\ (username mcpUrl, password mcpUrl)
       = (if endsWith (pathname base) "/mcp"
             || negb (String.eqb (protocol base) "file:")
          then (username base, password base) else ("", "")).
Proof.
  intros Hparse Hop.
  destruct (URL_with_base_spec "/sse" base Hop)
    as (u1 & Hu1 & _ & _ & Hs1 & Hf1 & _ & Hc1).
  destruct (URL_with_base_spec "/mcp" base Hop)
    as (u2 & Hu2 & _ & _ & Hs2 & Hf2 & _ & Hc2).
  unfold createSSETransport, createHTTPTransport, bind, call, ret.
  rewrite Hparse, Hu1, Hu2.
  destruct (endsWith (pathname base) "/sse"), (endsWith (pathname base) "/mcp"),
           (String.eqb (protocol base) "file:");
    eexists _, _; (split; [reflexivity|]); (split; [reflexivity|]); simpl;
    rewrite ?Hs1, ?Hf1, ?Hs2, ?Hf2, ?Hc1, ?Hc2; by repeat split.
Qed.

End FactoryUrls.

(** Witness of X4: two messages, an error and a close on an open
    logger. *)
Lemma log_keeps_order_witness :
  let h := "/tmp/mcp.proxy.4242" in
  let this := DebugLogger.mk (Some h) h "proxy" in
  let w := Sys.example_world Sys.no_faults in
  let cs := [DebugLogger.CallLogMessage "client->server" (Js.JString "a");
             DebugLogger.CallLogError (Js.mkError "boom" None);
             DebugLogger.CallLogClose;
             DebugLogger.CallLogMessage "server->client" (Js.JString "b")] in
  exists this' w' appended,
    DebugLogger.run this cs w = (Sys.Returned this', w')
    /\ Sys.log_of w' h = Sys.log_of w h ++ appended
    /\ Forall2 (DebugLoggerViews.written_by this (Sys.process_pid w))
               (DebugLoggerViews.until_close cs) appended.
Proof.
  cbv zeta. apply log_keeps_order; [reflexivity | constructor | constructor].
Defined.

(** Witness of X5: the first close fails to write, the second one
    succeeds. *)
Lemma close_record_is_last_witness :
  let h := "/tmp/mcp.proxy.4242" in
  let this := DebugLogger.mk (Some h) h "proxy" in
  let w := Sys.example_world (Sys.fault_at Sys.Write (Js.mkError "ENOSPC" None)) in
  let cs := [DebugLogger.CallLogClose;
             DebugLogger.CallLogMessage "client->server" (Js.JString "a");
             DebugLogger.CallLogClose; DebugLogger.CallLogClose] in
  exists this' w' body tail,
    DebugLogger.run this cs w = (Sys.Returned this', w')
    /\ Sys.log_of w' h = Sys.log_of w h ++ body ++ tail
    /\ Forall (fun e => DebugLogEntry.is_close e = false) body
    /\ (tail = []
        \/ exists e, tail = [e] /\ DebugLogEntry.is_close e = true
                     /\ DebugLogger.logFileHandle this' = None).
Proof.
  cbv zeta. apply close_record_is_last; [reflexivity | constructor].
Defined.

(** Witness of X6: the proxy and the cli of one process. *)
Lemma log_file_per_role_and_process_witness :
  let w := Sys.example_world Sys.no_faults in
  let this1 := DebugLogger.mk None "/tmp/mcp.proxy.4242" "proxy" in
  let this2 := DebugLogger.mk None "/tmp/mcp.cli.4242" "cli" in
  DebugLogger.new "/tmp/mcp" None w = (Sys.Returned this1, w)
  /\ DebugLogger.new "/tmp/mcp" (Some "cli") w = (Sys.Returned this2, w)
  /\ DebugLogger.logFilePath this1
     = "/tmp/mcp" +:+ "." +:+ "proxy" +:+ "." +:+ pretty (Sys.process_pid w).
Proof.
  cbv zeta. split; [reflexivity|]. split; [reflexivity|].
  apply (log_file_per_role_and_process "/tmp/mcp" None (Some "cli")
           (Sys.example_world Sys.no_faults) (Sys.example_world Sys.no_faults)
           (DebugLogger.mk None "/tmp/mcp.proxy.4242" "proxy")
           (DebugLogger.mk None "/tmp/mcp.cli.4242" "cli")
           (Sys.example_world Sys.no_faults) (Sys.example_world Sys.no_faults)
           eq_refl eq_refl).
Defined.

(** Witness of X7: a fresh logger in a world where nothing fails. *)
Lemma initialize_then_log_witness :
  let w := Sys.example_world Sys.no_faults in
  let this := DebugLogger.mk None "logs/mcp.proxy.4242" "proxy" in
  let this1 := DebugLogger.set_logFileHandle this (Some "logs/mcp.proxy.4242") in
  exists w1 w2 e,
    DebugLogger.initialize this w = (Sys.Returned this1, w1)
    /\ Sys.log_of w1 "logs/mcp.proxy.4242" = Sys.log_of w "logs/mcp.proxy.4242"
    /\ DebugLogger.logMessage this1 "client->server" (Js.JString "a") w1
       = (Sys.Returned this1, w2)
    /\ Sys.log_of w2 "logs/mcp.proxy.4242"
       = Sys.log_of w "logs/mcp.proxy.4242" ++ [e]
    /\ DebugLoggerViews.written_by this1 (Sys.process_pid w)
         (DebugLogger.CallLogMessage "client->server" (Js.JString "a")) e
    /\ forall path, path <> "logs/mcp.proxy.4242" ->
         Sys.log_of w2 path = Sys.log_of w path.
Proof.
  cbv zeta.
  apply (initialize_then_log (DebugLogger.mk None "logs/mcp.proxy.4242" "proxy")
           (Sys.example_world Sys.no_faults) "client->server" (Js.JString "a")
           eq_refl eq_refl eq_refl).
Defined.

(** Witness of X11: the directory of the log file cannot be created. *)
Lemma cli_initialization_not_retried_witness :
  let w := Sys.example_world (Sys.fault_at Sys.Mkdir (Js.mkError "EACCES" None)) in
  let t := CliDebugTransportWrapper.mkTransport None None None None in
  let this0 :=
    CliDebugTransportWrapper.mk t (DebugLogger.mk None "/var/log/mcp.cli.4242" "cli")
                                false in
  DebugLogger.open_fails (CliDebugTransportWrapper.debugLogger this0) w = true
  /\ exists this1 r w1,
       CliDebugTransportWrapper.send this0 (Js.JString "a") None w
       = (Sys.Returned (this1, r), w1)
       /\ Sys.files w1 = Sys.files w /\ CliWrapperUse.gave_up this1.
Proof.
  cbv zeta. split; [reflexivity|].
  apply (cli_initialization_not_retried
           (CliDebugTransportWrapper.mkTransport None None None None)
           "/var/log/mcp.cli.4242" "cli" (Js.JString "a") None
           (Sys.example_world (Sys.fault_at Sys.Mkdir (Js.mkError "EACCES" None)))
           eq_refl).
Defined.

(** Witness of X12: a world where nothing fails. *)
Lemma cli_send_is_logged_witness :
  let w := Sys.example_world Sys.no_faults in
  let t := CliDebugTransportWrapper.mkTransport None None None None in
  let path := "/tmp/mcp" +:+ ".cli." +:+ pretty (Sys.process_pid w) in
  exists this0 this1 r w1 e,
    CliDebugTransportWrapper.new t "/tmp/mcp" w = (Sys.Returned this0, w)
    /\ DebugLogger.logFilePath (CliDebugTransportWrapper.debugLogger this0) = path
    /\ CliDebugTransportWrapper.send this0 (Js.JString "a") None w
       = (Sys.Returned (this1, r), w1)
    /\ Sys.log_of w1 path = Sys.log_of w path ++ [e]
    /\ DebugLogEntry.role e = "cli"
    /\ DebugLogEntry.pid e = Sys.process_pid w
    /\ DebugLogEntry.direction e = "send"
    /\ DebugLogEntry.message e = Some (Js.JString "a")
    /\ Sys.calls w1 = Sys.calls w ++ [Sys.TSend (Js.JString "a") None]
    /\ CliDebugTransportWrapper.initialized this1 = true
    /\ DebugLogger.logFileHandle (CliDebugTransportWrapper.debugLogger this1)
       = Some path.
Proof.
  cbv zeta.
  apply (cli_send_is_logged
           (CliDebugTransportWrapper.mkTransport None None None None)
           "/tmp/mcp" (Js.JString "a") None (Sys.example_world Sys.no_faults)
           eq_refl eq_refl eq_refl).
Defined.

(** Witness of X13: a callback installed on the wrapped transport before
    it is wrapped. *)
Lemma installed_callback_survives_start_witness :
  let w := Sys.example_world Sys.no_faults in
  let ev := Sys.OnMessage (Js.JString "a") None in
  let t :=
    DebugTransportWrapper.mkTransport (Some (DebugTransportWrapper.External 3))
                                      None None None in
  let this :=
    DebugTransportWrapper.mk t "server" (DebugLogger.mk None "/tmp/mcp.server.4242" "server")
                             false None None None in
  exists this1 w1 this2 w2,
    DebugTransportWrapper.start this w
    = (Sys.Returned (this1, fst (Sys.attempt Sys.InnerStart w)), w1)
    /\ DebugTransportWrapper.fire this1 ev w1 = (Sys.Returned this2, w2)
    /\ Sys.invoked w2 = Sys.invoked w ++ [(3, ev)]
    /\ Sys.calls w2 = Sys.calls w ++ [Sys.TStart].
Proof.
  cbv zeta. apply installed_callback_survives_start. reflexivity.
Defined.

(** Witness of X15: [http://localhost:3000/api?token=s3#top]. *)
Lemma url_query_and_fragment_witness :
  let P := TransportFactory.example_platform None in
  let options :=
    TransportFactory.mkOptions "sse" None None
      (Some "http://localhost:3000/api?token=s3#top") in
  exists sseUrl,
    snd (@TransportFactory.createSSETransport P options)
    = Sys.Returned (TransportFactory.SSEClientTransport sseUrl)
    /\ (TransportFactory.search sseUrl, TransportFactory.hash sseUrl) = ("", "").
Proof.
  cbv zeta.
  destruct (@url_query_and_fragment (TransportFactory.example_platform None)
              (TransportFactory.mkOptions "sse" None None
                 (Some "http://localhost:3000/api?token=s3#top"))
              (TransportFactory.mkURL "http:" "" "" "localhost:3000" "/api"
                                      "?token=s3" "#top" false)
              eq_refl eq_refl)
    as (sseUrl & mcpUrl & Hsse & _ & Hq & _).
  exists sseUrl. split; [exact Hsse | exact Hq].
Defined.

(** ** The helpers of the lockfile validation script *)

Section DependencyTrace.
Import PlatformDependencies.

Lemma edges_delete (m : gmap string (list string)) k ps :
  m !! k = Some ps -> edges m = length ps + edges (delete k m).
Proof.
  intros H. unfold edges.
  apply (map_fold_delete_L (fun _ (parents : list string) n => length parents + n)).
  - intros. lia.
  - exact H.
Qed.

Lemma traceLoop_finishes parentMap fuel :
  forall queue visited (rest : gmap string (list string)),
    (forall k, k ∉ visited -> parentMap !! k = rest !! k) ->
    length queue + edges rest < fuel ->
    exists r, traceLoop parentMap fuel queue visited = Some r.
Proof.
  induction fuel as [|fuel IH]; intros queue visited rest Hinv Hlt; [lia|].
  destruct queue as [|[current child] queue]; simpl; [by eexists|].
  case_bool_decide as Hv.
  - apply (IH _ _ rest Hinv). simpl in Hlt. lia.
  - destruct (isWorkspace current); [by eexists|].
    apply (IH _ _ (delete current rest)).
    + intros k Hk. apply not_elem_of_union in Hk as [Hk1 Hk2].
      apply not_elem_of_singleton in Hk1.
      rewrite lookup_delete_ne by done. by apply Hinv.
    + rewrite (Hinv _ Hv). rewrite length_app, length_fmap. simpl in Hlt.
      destruct (rest !! current) as [ps|] eqn:E; simpl.
      * rewrite (edges_delete _ _ _ E) in Hlt. lia.
      * rewrite delete_id by done. lia.
Qed.

Lemma traceLoop_more_fuel parentMap fuel :
  forall fuel' queue visited r,
    traceLoop parentMap fuel queue visited = Some r ->
    fuel <= fuel' ->
    traceLoop parentMap fuel' queue visited = Some r.
Proof.
  induction fuel as [|fuel IH]; intros fuel' queue visited r H Hle; [done|].
  destruct fuel' as [|fuel']; [lia|].
  simpl in *. destruct queue as [|[current child] queue]; [done|].
  case_bool_decide; [apply IH; [done|lia]|].
  destruct (isWorkspace current); [done|]. apply IH; [done|lia].
Qed.


Lemma traceLoop_sound parentMap startPath fuel :
  forall queue visited t,
    Forall (fun item =>
              (item.1 = startPath /\ item.2 = startPath)
              \/ (isWorkspace item.2 = false
                  /\ rtc (dependent parentMap) startPath item.2
                  /\ dependent parentMap item.2 item.1)) queue ->
    traceLoop parentMap fuel queue visited = Some (Some t) ->
    isWorkspace (workspace t) = true
    /\ ((workspace t = startPath /\ directDependency t = startPath)
        \/ (isWorkspace (directDependency t) = false
            /\ rtc (dependent parentMap) startPath (directDependency t)
            /\ dependent parentMap (directDependency t) (workspace t))).
Proof.
  induction fuel as [|fuel IH]; intros queue visited t Hq H; [done|].
  simpl in H. destruct queue as [|[current child] queue]; [done|].
  apply Forall_cons in Hq as [Hc Hq]. simpl in Hc.
  case_bool_decide; [by eapply IH|].
  destruct (isWorkspace current) eqn:Hw.
  - injection H as <-. simpl. by split.
  - eapply IH; [|exact H].
    apply Forall_app. split; [done|].
    apply Forall_forall. intros [p c] Hin.
    apply list_elem_of_fmap in Hin as (parent & [= -> ->] & Hin).
    right. simpl. split; [done|]. split; [|exact Hin].
    destruct Hc as [[-> _]|(_ & Hr & Hd)]; [done|].
    by eapply rtc_r.
Qed.

Lemma traceLoop_complete parentMap startPath fuel :
  forall queue visited,
    (startPath ∈ visited \/ startPath ∈ queue.*1) ->
    (forall c, c ∈ visited ->
       isWorkspace c = false
       /\ forall p, dependent parentMap c p -> p ∈ visited \/ p ∈ queue.*1) ->
    traceLoop parentMap fuel queue visited = Some None ->
    forall n, rtc (dependent parentMap) startPath n -> isWorkspace n = false.
Proof.
  induction fuel as [|fuel IH]; intros queue visited Hs Hv H; [done|].
  simpl in H. destruct queue as [|[current child] queue].
  - assert (Hall : forall n, rtc (dependent parentMap) startPath n -> n ∈ visited).
    { apply rtc_ind_r.
      - destruct Hs as [|Hs]; [done|]. by apply elem_of_nil in Hs.
      - intros y z _ Hd Hy. destruct (Hv y Hy) as [_ Hp].
        destruct (Hp z Hd) as [|Hz]; [done|]. by apply elem_of_nil in Hz. }
    intros n Hn. by apply Hv, Hall.
  - case_bool_decide as Hc.
    + eapply IH; [| |exact H].
      * destruct Hs as [|Hs]; [by left|]. simpl in Hs.
        apply elem_of_cons in Hs as [->|]; [by left|by right].
      * intros c Hcv. destruct (Hv _ Hcv) as [Hw Hp]. split; [done|].
        intros p Hd. destruct (Hp _ Hd) as [|Hq]; [by left|]. simpl in Hq.
        apply elem_of_cons in Hq as [->|]; [by left|by right].
    + destruct (isWorkspace current) eqn:Hw; [done|].
      eapply IH; [| |exact H].
      * destruct Hs as [|Hs]; [left; apply elem_of_union; by right|].
        simpl in Hs.
        apply elem_of_cons in Hs as [->|Hs];
          [left; apply elem_of_union; left; by apply elem_of_singleton|].
        right. rewrite fmap_app. apply elem_of_app. by left.
      * intros c Hcv. apply elem_of_union in Hcv as [Hcv|Hcv].
        -- apply elem_of_singleton in Hcv as ->. split; [done|].
           intros p Hd. right. rewrite fmap_app. apply elem_of_app. right.
           rewrite <- list_fmap_compose. simpl.
           apply list_elem_of_fmap. by exists p.
        -- destruct (Hv _ Hcv) as [Hwc Hp]. split; [done|].
           intros p Hd.
           destruct (Hp _ Hd) as [|Hq]; [left; apply elem_of_union; by right|].
           simpl in Hq.
           apply elem_of_cons in Hq as [->|Hq];
             [left; apply elem_of_union; left; by apply elem_of_singleton|].
           right. rewrite fmap_app. apply elem_of_app. by left.
Qed.

Lemma traceToWorkspace_finishes startPath parentMap :
  exists r, traceToWorkspace (edges parentMap + 2) startPath parentMap = Some r.
Proof.
  apply (traceLoop_finishes _ _ _ _ parentMap); [done|]. simpl. lia.
Qed.

(** X16.  [traceToWorkspace] returns on every dependency graph, cycles
    included: no path is expanded twice, so the loop runs at most once
    for the start and once for every edge of the graph, and then once
    more to find the queue empty. *)
Theorem traceToWorkspace_terminates startPath parentMap :
  exists r, forall fuel,
    edges parentMap + 2 <= fuel ->
    traceToWorkspace fuel startPath parentMap = Some r.
Proof.
  destruct (traceToWorkspace_finishes startPath parentMap) as [r Hr].
  exists r. intros fuel Hle. by eapply traceLoop_more_fuel.
Qed.

(** X17.  What [traceToWorkspace] returns when it returns an owner.  The
    [workspace] is a workspace path (no [node_modules] in it).  Either it
    is the start itself, which is then its own [directDependency]; or the
    [directDependency] is a package under [node_modules] that is reached
    from the start along recorded dependents, and the workspace is
    recorded as depending on it directly. *)
Theorem traceToWorkspace_found fuel startPath parentMap t :
  traceToWorkspace fuel startPath parentMap = Some (Some t) ->
  isWorkspace (workspace t) = true
  /\ ((workspace t = startPath /\ directDependency t = startPath)
      \/ (isWorkspace (directDependency t) = false
          /\ rtc (dependent parentMap) startPath (directDependency t)
          /\ dependent parentMap (directDependency t) (workspace t))).
Proof.
  apply traceLoop_sound. constructor; [by left|constructor].
Qed.

(** X18.  [traceToWorkspace] returns [null] exactly when no workspace is
    reached from the start along recorded dependents: it never misses an
    owner, and never gives up on a graph because of a cycle. *)
Theorem traceToWorkspace_null startPath parentMap :
  (exists fuel, traceToWorkspace fuel startPath parentMap = Some None)
  <-> (forall n, rtc (dependent parentMap) startPath n -> isWorkspace n = false).
Proof.
  split.
  - intros [fuel H]. eapply traceLoop_complete; [| |exact H].
    + right. simpl. by left.
    + intros c Hc. by apply elem_of_empty in Hc.
  - intros Hn. destruct (traceToWorkspace_finishes startPath parentMap) as [[t|] Hr];
      [|by eexists].
    apply (traceLoop_sound _ startPath) in Hr as [Hw Hr];
      [|constructor; [by left|constructor]].
    rewrite Hn in Hw; [done|].
    destruct Hr as [[-> _]|(_ & Hr & Hd)]; [done|]. by eapply rtc_r.
Qed.

(** Witness of X17: a cycle between two packages, one of them a
    dependency of the workspace [client]. *)
Lemma traceToWorkspace_found_witness :
  let parentMap : gmap string (list string) :=
    {[ "node_modules/esbuild" := ["node_modules/vite"; "node_modules/esbuild"];
       "node_modules/vite" := ["node_modules/esbuild"; "client"] ]} in
  let t := mkOwner "client" "node_modules/vite" in
  traceToWorkspace 6 "node_modules/esbuild" parentMap = Some (Some t)
  /\ isWorkspace (workspace t) = true
  /\ ((workspace t = "node_modules/esbuild"
       /\ directDependency t = "node_modules/esbuild")
      \/ (isWorkspace (directDependency t) = false
          /\ rtc (dependent parentMap) "node_modules/esbuild" (directDependency t)
          /\ dependent parentMap (directDependency t) (workspace t))).
Proof.
  cbv zeta. split; [vm_compute; reflexivity|].
  apply (traceToWorkspace_found 6). vm_compute. reflexivity.
Defined.

End DependencyTrace.

Section PackageNames.
Import PlatformDependencies.

Lemma lastIndexOf_None s needle :
  lastIndexOf s needle = None <-> Js.includes s needle = false.
Proof.
  induction s as [|c rest IH].
  - cbn [lastIndexOf Js.includes]. rewrite orb_false_r.
    destruct (String.prefix needle ""); by split.
  - cbn [lastIndexOf Js.includes].
    destruct (lastIndexOf rest needle) as [i|].
    + split; [done|]. intros H. apply orb_false_iff in H as [_ H].
      by apply IH in H.
    + destruct IH as [IH _]. rewrite (IH eq_refl), orb_false_r.
      destruct (String.prefix needle (String c rest)); by split.
Qed.

Lemma includes_substring_from s needle k :
  Js.includes s needle = false ->
  Js.includes (substring_from k s) needle = false.
Proof.
  revert s. induction k as [|k IH]; intros s H; [by destruct s|].
  destruct s as [|c rest]; [done|]. simpl. apply IH.
  cbn [Js.includes] in H. by apply orb_false_iff in H as [_ H].
Qed.

Lemma substring_from_add k n s :
  substring_from (n + k) s = substring_from k (substring_from n s).
Proof.
  revert s. induction n as [|n IH]; intros s; [done|].
  destruct s as [|c rest]; simpl; [by destruct k|]. apply IH.
Qed.

Lemma lastIndexOf_after s needle i :
  String.prefix needle "" = false ->
  lastIndexOf s needle = Some i ->
  Js.includes (substring_from (S i) s) needle = false.
Proof.
  intros Hne. revert i. induction s as [|c rest IH]; intros i H.
  - cbn [lastIndexOf] in H. by rewrite Hne in H.
  - cbn [lastIndexOf] in H. simpl.
    destruct (lastIndexOf rest needle) as [j|] eqn:E.
    + injection H as <-. by apply IH.
    + destruct i; [by apply lastIndexOf_None|].
      by destruct (String.prefix needle (String c rest)).
Qed.

Lemma lastIndexOf_prefix s needle i :
  lastIndexOf s needle = Some i ->
  exists pre, s = pre +:+ substring_from i s /\ String.length pre = i.
Proof.
  revert i. induction s as [|c rest IH]; intros i H.
  - exists "". cbn [lastIndexOf] in H. destruct (String.prefix needle ""); [|done].
    by injection H as <-.
  - cbn [lastIndexOf] in H. destruct (lastIndexOf rest needle) as [j|] eqn:E.
    + injection H as <-. destruct (IH _ eq_refl) as (pre & Hp & Hl).
      exists (String c pre). simpl.
      split; [exact (f_equal (String c) Hp)|by rewrite Hl].
    + destruct (String.prefix needle (String c rest)); [|done].
      injection H as <-. by exists "".
Qed.


Lemma lastIndexOf_app pre s needle i :
  lastIndexOf s needle = Some i ->
  lastIndexOf (pre +:+ s) needle = Some (String.length pre + i).
Proof.
  intros H. induction pre as [|c pre IH]; [done|].
  change (String c pre +:+ s) with (String c (pre +:+ s)).
  cbn [lastIndexOf]. by rewrite IH.
Qed.

Lemma substring_from_app pre s k :
  substring_from (String.length pre + k) (pre +:+ s) = substring_from k s.
Proof. induction pre as [|c pre IH]; [done|]. exact IH. Qed.

Lemma string_app_assoc (a b c : string) : (a +:+ b) +:+ c = a +:+ b +:+ c.
Proof. induction a as [|x a IH]; [done|]. exact (f_equal (String x) IH). Qed.

Lemma prefix_split needle :
  forall s, String.prefix needle s = true ->
            s = needle +:+ substring_from (String.length needle) s.
Proof.
  induction needle as [|a needle IH]; intros s H; [done|].
  destruct s as [|b s]; [done|]. simpl in H.
  destruct (ascii_dec a b) as [->|]; [|done].
  exact (f_equal (String b) (IH _ H)).
Qed.

Lemma lastIndexOf_occurrence s needle :
  forall i, lastIndexOf s needle = Some i ->
    exists dir,
      s = dir +:+ needle +:+ substring_from (i + String.length needle) s.
Proof.
  induction s as [|c rest IH]; intros i H.
  - cbn [lastIndexOf] in H. destruct needle; [|done].
    injection H as <-. by exists "".
  - cbn [lastIndexOf] in H. destruct (lastIndexOf rest needle) as [j|] eqn:E.
    + injection H as <-. destruct (IH _ eq_refl) as [dir Hd].
      exists (String c dir). exact (f_equal (String c) Hd).
    + destruct (String.prefix needle (String c rest)) eqn:Hp; [|done].
      injection H as <-. exists "". by apply prefix_split.
Qed.

Lemma marker_tail_clean name :
  Js.includes name "node_modules/" = false ->
  Js.includes ("ode_modules/" +:+ name) "node_modules/" = false.
Proof.
  intros H. cbv [String.append]. simpl. exact H.
Qed.

(** X19.  [getPackageNameFromPath] returns what follows the last
    [node_modules/] of the path, the whole path when there is none; the
    name it returns never holds a [node_modules/] of its own. *)
Theorem getPackageNameFromPath_is_bare pkgPath :
  exists pre,
    pkgPath = pre +:+ getPackageNameFromPath pkgPath
    /\ (pre = "" \/ exists dir, pre = dir +:+ "node_modules/")
    /\ Js.includes (getPackageNameFromPath pkgPath) "node_modules/" = false.
Proof.
  unfold getPackageNameFromPath.
  destruct (lastIndexOf pkgPath "node_modules/") as [index|] eqn:E.
  - destruct (lastIndexOf_occurrence _ _ _ E) as [dir Hd].
    exists (dir +:+ "node_modules/"). split; [|split].
    + by rewrite string_app_assoc.
    + right. by exists dir.
    + replace (index + 13) with (S index + 12) by lia.
      rewrite substring_from_add. apply includes_substring_from.
      by apply lastIndexOf_after.
  - exists "". split; [done|]. split; [by left|]. by apply lastIndexOf_None.
Qed.

(** X20.  The name is recovered from the paths the script builds: for a
    dependency name without [node_modules/] in it, the package name of
    [node_modules/<name>] and of [<package path>/node_modules/<name>],
    scoped names included, is the name. *)
Theorem getPackageNameFromPath_of_install_path dir name :
  Js.includes name "node_modules/" = false ->
  getPackageNameFromPath (dir +:+ "node_modules/" +:+ name) = name.
Proof.
  intros H. unfold getPackageNameFromPath.
  assert (E : lastIndexOf ("node_modules/" +:+ name) "node_modules/" = Some 0).
  { change ("node_modules/" +:+ name) with (String "n" ("ode_modules/" +:+ name)).
    cbn [lastIndexOf].
    destruct (lastIndexOf_None ("ode_modules/" +:+ name) "node_modules/") as [_ ->];
      [|by apply marker_tail_clean].
    cbv [String.append]. simpl. by destruct name. }
  rewrite (lastIndexOf_app dir _ _ _ E), <- Nat.add_assoc, substring_from_app.
  done.
Qed.

(** Witness of X20: a scoped package nested under another package. *)
Lemma getPackageNameFromPath_of_install_path_witness :
  Js.includes "@esbuild/linux-x64" "node_modules/" = false
  /\ getPackageNameFromPath "node_modules/vite/node_modules/@esbuild/linux-x64"
     = "@esbuild/linux-x64".
Proof.
  split; [reflexivity|].
  apply (getPackageNameFromPath_of_install_path "node_modules/vite/"
           "@esbuild/linux-x64"). reflexivity.
Defined.

End PackageNames.
